(** * LED animation library (omi_firmware/led_animation_library.h)

    A shallow embedding of [class LEDAnimator] and of the Arduino calls it
    makes.  The class is stateful and talks to three collaborators: the
    millisecond clock ([millis], [delay]), the PWM peripheral ([ledcWrite])
    and the serial port ([Serial.printf]).  The embedding threads one
    [World] through every method with a small state monad; each call to a
    collaborator is recorded, with the clock value at which it happens, in
    the world's trace.

    Conventions.
    - [unsigned long] is 32 bits wide on the target: [millis()] is the
      boot clock modulo 2^32 and [millis() - lastUpdate] is computed
      modulo 2^32.
    - [int] is 32 bits wide; arithmetic on it is written with two's
      complement wrap-around ([wrap_int]).
    - One call of [update()] reads an unchanged clock, except that
      [delay(n)] blocks the caller and moves the clock forward by [n].
    - The two sine patterns compute their duty in floating point; the
      written value is kept symbolic ([ProcessingSine], [ListeningSine]).
    - [begin()] with its blocking start-up animation and the two free
      functions [showWiFiConnected] and [showButtonPress] run [for] loops;
      these are unrolled with fuel ([for_loop]). *)

From Stdlib Require Import ZArith NArith List Bool Lia.
From Stdlib Require String.
Import String.StringSyntax.
Delimit Scope string_scope with string.
Import ListNotations.

Local Open Scope Z_scope.

(** ** Machine integers *)

Definition ULONG_MOD : Z := 4294967296.
Definition INT_MIN : Z := -2147483648.
Definition INT_MAX : Z := 2147483647.

(** Conversion to [unsigned long]. *)
Definition wrap_ulong (z : Z) : Z := z mod ULONG_MOD.

(** Conversion to [int]. *)
Definition wrap_int (z : Z) : Z := (z - INT_MIN) mod ULONG_MOD + INT_MIN.

(** [a - b] on [unsigned long] operands. *)
Definition ulong_sub (a b : Z) : Z := wrap_ulong (a - b).

(** [a + b] and [a - b] on [int] operands. *)
Definition int_add (a b : Z) : Z := wrap_int (a + b).
Definition int_sub (a b : Z) : Z := wrap_int (a - b).

(** [a % b] on [int] operands truncates towards zero. *)
Definition int_rem (a b : Z) : Z := Z.rem a b.

Arguments wrap_ulong : simpl never.
Arguments wrap_int : simpl never.
Arguments ulong_sub : simpl never.
Arguments int_add : simpl never.
Arguments int_sub : simpl never.

(** ** Data model *)

Inductive AnimationState : Type :=
| IDLE
| RECORDING
| PROCESSING
| UPLOADING
| SUCCESS
| ERROR
| CONNECTING
| LISTENING
| BRUTAL_FEEDBACK
| LOW_BATTERY.

Definition AnimationState_eqb (a b : AnimationState) : bool :=
  match a, b with
  | IDLE, IDLE | RECORDING, RECORDING | PROCESSING, PROCESSING
  | UPLOADING, UPLOADING | SUCCESS, SUCCESS | ERROR, ERROR
  | CONNECTING, CONNECTING | LISTENING, LISTENING
  | BRUTAL_FEEDBACK, BRUTAL_FEEDBACK | LOW_BATTERY, LOW_BATTERY => true
  | _, _ => false
  end.

(** The fields of [class LEDAnimator], in declaration order. *)
Record LEDAnimator : Type := mkLEDAnimator {
  ledPin : Z;
  ledChannel : Z;
  lastUpdate : Z;
  animationStep : Z;
  brightness : Z;
  direction : bool;
  currentState : AnimationState
}.

(** The constructor [LEDAnimator(int pin)]. *)
Definition LEDAnimator_new (pin : Z) : LEDAnimator :=
  {| ledPin := pin;
     ledChannel := 0;
     lastUpdate := 0;
     animationStep := 0;
     brightness := 0;
     direction := true;
     currentState := IDLE |}.

(** The value handed to [ledcWrite]: an [int] expression, or one of the two
    floating-point samples
    [(sin(animationStep * 0.1) + 1) * 127] and
    [(sin(animationStep * 0.05) + 1) * 80 + 20]. *)
Inductive duty : Type :=
| Int (v : Z)
| ProcessingSine (step : Z)
| ListeningSine (step : Z).

Inductive event : Type :=
| LedcWrite (channel : Z) (d : duty)
| Delay (ms : Z)
| SerialPrintf (state : AnimationState).

(** [clock] is the time since boot in milliseconds (not wrapped);
    [pulsePhase] is the function-local [static int] of [connectingPulse],
    which lives outside the object; [trace] lists the collaborator calls,
    oldest first, each with the clock value at which it was made. *)
Record World : Type := mkWorld {
  clock : Z;
  pulsePhase : Z;
  led : LEDAnimator;
  trace : list (Z * event)
}.

(** ** The state monad of the firmware *)

Definition M (A : Type) : Type := World -> A * World.

Definition ret {A : Type} (a : A) : M A := fun w => (a, w).

Definition bind {A B : Type} (m : M A) (k : A -> M B) : M B :=
  fun w => k (fst (m w)) (snd (m w)).

Declare Scope fw_scope.
Delimit Scope fw_scope with fw.
Notation "x <- m ;; k" := (bind m (fun x => k))
  (at level 61, m at next level, right associativity) : fw_scope.
Notation "m ;; k" := (bind m (fun _ => k))
  (at level 61, right associativity) : fw_scope.
Local Open Scope fw_scope.

Definition exec {A : Type} (m : M A) (w : World) : World := snd (m w).

(** [if (c) { body }] without an [else]. *)
Definition when (c : bool) (body : M unit) : M unit :=
  if c then body else ret tt.

Definition get {A : Type} (field : LEDAnimator -> A) : M A :=
  fun w => (field (led w), w).

Definition modify_led (f : LEDAnimator -> LEDAnimator) : M unit :=
  fun w => (tt, {| clock := clock w; pulsePhase := pulsePhase w;
                   led := f (led w); trace := trace w |}).

Definition set_lastUpdate (v : Z) : M unit :=
  modify_led (fun e =>
    {| ledPin := ledPin e; ledChannel := ledChannel e; lastUpdate := v;
       animationStep := animationStep e; brightness := brightness e;
       direction := direction e; currentState := currentState e |}).

Definition set_animationStep (v : Z) : M unit :=
  modify_led (fun e =>
    {| ledPin := ledPin e; ledChannel := ledChannel e;
       lastUpdate := lastUpdate e; animationStep := v;
       brightness := brightness e; direction := direction e;
       currentState := currentState e |}).

Definition set_brightness (v : Z) : M unit :=
  modify_led (fun e =>
    {| ledPin := ledPin e; ledChannel := ledChannel e;
       lastUpdate := lastUpdate e; animationStep := animationStep e;
       brightness := v; direction := direction e;
       currentState := currentState e |}).

Definition set_direction (v : bool) : M unit :=
  modify_led (fun e =>
    {| ledPin := ledPin e; ledChannel := ledChannel e;
       lastUpdate := lastUpdate e; animationStep := animationStep e;
       brightness := brightness e; direction := v;
       currentState := currentState e |}).

Definition set_currentState (v : AnimationState) : M unit :=
  modify_led (fun e =>
    {| ledPin := ledPin e; ledChannel := ledChannel e;
       lastUpdate := lastUpdate e; animationStep := animationStep e;
       brightness := brightness e; direction := direction e;
       currentState := v |}).

Definition get_pulsePhase : M Z := fun w => (pulsePhase w, w).

Definition set_pulsePhase (v : Z) : M unit :=
  fun w => (tt, {| clock := clock w; pulsePhase := v;
                   led := led w; trace := trace w |}).

(** *** The Arduino collaborators *)

Definition emit (e : event) : M unit :=
  fun w => (tt, {| clock := clock w; pulsePhase := pulsePhase w;
                   led := led w; trace := trace w ++ [(clock w, e)] |}).

Definition millis : M Z := fun w => (wrap_ulong (clock w), w).

(** [delay(ms)] returns to its caller [ms] milliseconds later. *)
Definition delay (ms : Z) : M unit :=
  emit (Delay ms) ;;
  fun w => (tt, {| clock := clock w + ms; pulsePhase := pulsePhase w;
                   led := led w; trace := trace w |}).

Definition ledcWrite (channel : Z) (d : duty) : M unit :=
  emit (LedcWrite channel d).

Definition Serial_printf (state : AnimationState) : M unit :=
  emit (SerialPrintf state).

(** ** The methods of [LEDAnimator] *)

Definition setState (state : AnimationState) : M unit :=
  cur <- get currentState ;;
  when (negb (AnimationState_eqb cur state)) (
    set_currentState state ;;
    set_animationStep 0 ;;
    Serial_printf state).

(** [millis() - lastUpdate > cadence] *)
Definition elapsed_over (cadence : Z) : M bool :=
  now <- millis ;;
  last <- get lastUpdate ;;
  ret (cadence <? ulong_sub now last).

(** [lastUpdate = millis();] *)
Definition stamp_lastUpdate : M unit :=
  now <- millis ;;
  set_lastUpdate now.

(** [ledcWrite(ledChannel, brightness);] *)
Definition write_brightness : M unit :=
  ch <- get ledChannel ;;
  b <- get brightness ;;
  ledcWrite ch (Int b).

(** [ledcWrite(ledChannel, (animationStep % 2) ? 255 : 0);] *)
Definition write_step_parity : M unit :=
  ch <- get ledChannel ;;
  s <- get animationStep ;;
  ledcWrite ch (Int (if int_rem s 2 =? 0 then 0 else 255)).

(** [animationStep++;] *)
Definition incr_animationStep : M unit :=
  s <- get animationStep ;;
  set_animationStep (int_add s 1).

Definition breathingEffect : M unit :=
  due <- elapsed_over 20 ;;
  when due (
    stamp_lastUpdate ;;
    dir <- get direction ;;
    (if dir then
       b <- get brightness ;;
       set_brightness (int_add b 1) ;;
       b <- get brightness ;;
       when (80 <=? b) (set_direction false)
     else
       b <- get brightness ;;
       set_brightness (int_sub b 1) ;;
       b <- get brightness ;;
       when (b <=? 0) (
         set_direction true ;;
         delay 300)) ;;
    write_brightness).

Definition recordingPulse : M unit :=
  due <- elapsed_over 8 ;;
  when due (
    stamp_lastUpdate ;;
    dir <- get direction ;;
    (if dir then
       b <- get brightness ;;
       set_brightness (int_add b 10) ;;
       b <- get brightness ;;
       when (255 <=? b) (set_direction false)
     else
       b <- get brightness ;;
       set_brightness (int_sub b 10) ;;
       b <- get brightness ;;
       when (b <=? 50) (set_direction true)) ;;
    write_brightness).

Definition processingSpinner : M unit :=
  due <- elapsed_over 30 ;;
  when due (
    stamp_lastUpdate ;;
    incr_animationStep ;;
    ch <- get ledChannel ;;
    s <- get animationStep ;;
    ledcWrite ch (ProcessingSine s)).

(** [brightness = (brightness == 0) ? high : 0;] *)
Definition toggle_brightness (high : Z) : M unit :=
  b <- get brightness ;;
  set_brightness (if b =? 0 then high else 0).

Definition uploadingBlink : M unit :=
  due <- elapsed_over 100 ;;
  when due (
    stamp_lastUpdate ;;
    toggle_brightness 255 ;;
    write_brightness).

Definition successFlash : M unit :=
  s <- get animationStep ;;
  due <- elapsed_over 150 ;;
  if (s <? 6) && due then
    stamp_lastUpdate ;;
    write_step_parity ;;
    incr_animationStep
  else
    when (6 <=? s) (setState IDLE).

Definition errorFlash : M unit :=
  due <- elapsed_over 50 ;;
  when due (
    stamp_lastUpdate ;;
    toggle_brightness 255 ;;
    write_brightness).

Definition connectingPulse : M unit :=
  due <- elapsed_over 200 ;;
  when due (
    stamp_lastUpdate ;;
    ch <- get ledChannel ;;
    phase <- get_pulsePhase ;;
    (if (phase =? 0) || (phase =? 2) then
       ledcWrite ch (Int 255)
     else if (phase =? 1) || (phase =? 3) then
       ledcWrite ch (Int 0)
     else if phase =? 4 then
       ledcWrite ch (Int 0) ;;
       set_pulsePhase (-1) ;;
       delay 600
     else
       ret tt) ;;
    phase <- get_pulsePhase ;;
    set_pulsePhase (int_add phase 1)).

Definition listeningWave : M unit :=
  due <- elapsed_over 40 ;;
  when due (
    stamp_lastUpdate ;;
    incr_animationStep ;;
    ch <- get ledChannel ;;
    s <- get animationStep ;;
    ledcWrite ch (ListeningSine s)).

Definition brutalFeedbackEffect : M unit :=
  s <- get animationStep ;;
  if s =? 0 then
    ch <- get ledChannel ;;
    ledcWrite ch (Int 0) ;;
    delay 500 ;;
    set_animationStep 1
  else
    due <- elapsed_over 100 ;;
    if (s <=? 6) && due then
      stamp_lastUpdate ;;
      write_step_parity ;;
      incr_animationStep
    else
      when (6 <? s) (setState LISTENING).

Definition lowBatteryWarning : M unit :=
  due <- elapsed_over 1000 ;;
  when due (
    stamp_lastUpdate ;;
    toggle_brightness 100 ;;
    write_brightness).

Definition update : M unit :=
  cur <- get currentState ;;
  match cur with
  | IDLE => breathingEffect
  | RECORDING => recordingPulse
  | PROCESSING => processingSpinner
  | UPLOADING => uploadingBlink
  | SUCCESS => successFlash
  | ERROR => errorFlash
  | CONNECTING => connectingPulse
  | LISTENING => listeningWave
  | BRUTAL_FEEDBACK => brutalFeedbackEffect
  | LOW_BATTERY => lowBatteryWarning
  end.

(** ** The driver loop *)

(** The world right after the constructor ran, with the clock at [t0]. *)
Definition boot (pin t0 : Z) : World :=
  {| clock := t0; pulsePhase := 0; led := LEDAnimator_new pin; trace := [] |}.

(** [d] milliseconds pass outside the animator. *)
Definition advance (d : N) (w : World) : World :=
  {| clock := clock w + Z.of_N d; pulsePhase := pulsePhase w;
     led := led w; trace := trace w |}.

(** One iteration of the cooperative loop: [d] milliseconds of other work,
    then [update()]. *)
Definition tick (d : N) (w : World) : World := exec update (advance d w).

(** Successive iterations, with the given gaps. *)
Definition run (ds : list N) (w : World) : World :=
  fold_left (fun w d => tick d w) ds w.

(** The unsigned difference [millis() - lastUpdate] seen in world [w]. *)
Definition elapsed (w : World) : Z :=
  ulong_sub (wrap_ulong (clock w)) (lastUpdate (led w)).

(** The tick finds [millis() - lastUpdate > cadence]. *)
Definition qualifies (cadence : Z) (d : N) (w : World) : bool :=
  cadence <? elapsed (advance d w).

(** Every tick of a run is due when its turn comes. *)
Fixpoint all_qualify (cadence : Z) (ds : list N) (w : World) : bool :=
  match ds with
  | [] => true
  | d :: ds' => qualifies cadence d w && all_qualify cadence ds' (tick d w)
  end.

(** The [int] duties written, and the sleeps taken, along a trace. *)
Definition int_duties (tr : list (Z * event)) : list Z :=
  flat_map (fun te => match snd te with
                      | LedcWrite _ (Int v) => [v]
                      | _ => []
                      end) tr.

Definition delays (tr : list (Z * event)) : list Z :=
  flat_map (fun te => match snd te with
                      | Delay ms => [ms]
                      | _ => []
                      end) tr.

(** [(animationStep % 2) ? 255 : 0] for [n] successive steps from [s]. *)
Fixpoint flash_duties (s : Z) (n : nat) : list Z :=
  match n with
  | O => []
  | S n' => (if int_rem s 2 =? 0 then 0 else 255) :: flash_duties (s + 1) n'
  end.

(** The same flashes as trace events on channel [ch]: one per tick, the
    ticks [ds] apart, the first [hd ds] after clock [t]. *)
Fixpoint flash_events (ch t s : Z) (ds : list N) : list (Z * event) :=
  match ds with
  | [] => []
  | d :: ds' =>
      (t + Z.of_N d, LedcWrite ch (Int (if int_rem s 2 =? 0 then 0 else 255)))
      :: flash_events ch (t + Z.of_N d) (s + 1) ds'
  end.

(** [lastUpdate] holds the present clock reading. *)
Definition freshly_stamped (w : World) : Prop :=
  lastUpdate (led w) = wrap_ulong (clock w).

(** Events no older than [t]. *)
Definition stamped_from (t : Z) (evs : list (Z * event)) : Prop :=
  Forall (fun te => t <= fst te) evs.

(** Cadence and high value of the three blinking patterns
    ([uploadingBlink], [errorFlash], [lowBatteryWarning]). *)
Definition blink_params (s : AnimationState) : option (Z * Z) :=
  match s with
  | UPLOADING => Some (100, 255)
  | ERROR => Some (50, 255)
  | LOW_BATTERY => Some (1000, 100)
  | _ => None
  end.

(** The [delay] calls that [update()] makes when it is called in world [w]:
    the bottom of the idle ramp, the fifth connecting phase and the first
    call of the brutal-feedback pattern. *)
Definition pauses (w : World) : list Z :=
  let e := led w in
  match currentState e with
  | IDLE =>
      if (20 <? elapsed w) && negb (direction e)
         && (int_sub (brightness e) 1 <=? 0)
      then [300] else []
  | CONNECTING =>
      if (200 <? elapsed w) && (pulsePhase w =? 4) then [600] else []
  | BRUTAL_FEEDBACK =>
      if animationStep e =? 0 then [500] else []
  | _ => []
  end.

(** What holds of the animator while it has only ever run the idle
    pattern. *)
Definition idle_inv (w : World) : Prop :=
  currentState (led w) = IDLE /\
  if direction (led w)
  then 0 <= brightness (led w) <= 79
  else 1 <= brightness (led w) <= 80.

(** ** The blocking sequences *)

(** [begin()] and the two free functions run [for] loops of [ledcWrite]
    and [delay].  A loop [for (int i = start; cond(i); i = next(i)) body(i)]
    is unrolled at most [fuel] times; the result tells whether the loop
    reached the end of its range ([true]) or the fuel ran out first. *)
Fixpoint for_loop (fuel : nat) (cond : Z -> bool) (next : Z -> Z)
    (body : Z -> M bool) (i : Z) : M bool :=
  match fuel with
  | O => ret false
  | S fuel' =>
      if cond i then
        ok <- body i ;;
        if ok then for_loop fuel' cond next body (next i) else ret false
      else ret true
  end.

(** Statement sequencing that stops when a loop ran out of fuel. *)
Definition and_then (m k : M bool) : M bool :=
  ok <- m ;;
  if ok then k else ret false.

Notation "m ;;; k" := (and_then m k)
  (at level 61, right associativity) : fw_scope.

(** The peripheral set-up calls and the banner leave no mark on the world:
    it holds no PWM configuration and the trace keeps no free text. *)
Definition ledcSetup (channel freq resolution : Z) : M unit := ret tt.
Definition ledcAttachPin (pin channel : Z) : M unit := ret tt.
Definition Serial_println (msg : String.string) : M unit := ret tt.

(** [ledcWrite(ledChannel, v); delay(ms);] *)
Definition write_then_delay (v ms : Z) : M bool :=
  ch <- get ledChannel ;;
  ledcWrite ch (Int v) ;;
  delay ms ;;
  ret true.

Definition startupAnimation (fuel : nat) : M bool :=
  Serial_println "🎨 LED Startup Animation"%string ;;
  for_loop fuel (fun cycle => cycle <? 3) (fun cycle => int_add cycle 1)
    (fun _ =>
       for_loop fuel (fun b => b <=? 255) (fun b => int_add b 5)
         (fun b => write_then_delay b 3) 0 ;;;
       for_loop fuel (fun b => 0 <=? b) (fun b => int_sub b 5)
         (fun b => write_then_delay b 3) 255) 0 ;;;
  for_loop fuel (fun i => i <? 5) (fun i => int_add i 1)
    (fun _ => write_then_delay 255 50 ;;; write_then_delay 0 50) 0 ;;;
  (ch <- get ledChannel ;;
   ledcWrite ch (Int 0) ;;
   ret true).

Definition begin (fuel : nat) : M bool :=
  ch <- get ledChannel ;;
  ledcSetup ch 5000 8 ;;
  pin <- get ledPin ;;
  ledcAttachPin pin ch ;;
  startupAnimation fuel.

(** [ledcWrite(0, v); delay(ms);] of the free functions, which name
    channel 0 themselves and never look at their [LEDAnimator&]. *)
Definition write0_then_delay (v ms : Z) : M bool :=
  ledcWrite 0 (Int v) ;;
  delay ms ;;
  ret true.

Definition showWiFiConnected (fuel : nat) : M bool :=
  for_loop fuel (fun i => i <? 2) (fun i => int_add i 1)
    (fun _ =>
       for_loop fuel (fun b => b <=? 255) (fun b => int_add b 3)
         (fun b => write0_then_delay b 2) 0 ;;;
       for_loop fuel (fun b => 0 <=? b) (fun b => int_sub b 3)
         (fun b => write0_then_delay b 2) 255) 0.

Definition showButtonPress : M unit :=
  ledcWrite 0 (Int 255) ;;
  delay 50 ;;
  ledcWrite 0 (Int 0).

(** A world seen from another one: [w] happened after [w0], its clock and
    its stamps counted from [w0]'s clock. *)
Definition rebase (w0 w : World) : World :=
  {| clock := clock w0 + clock w;
     pulsePhase := pulsePhase w;
     led := led w;
     trace := trace w0
              ++ map (fun te => (clock w0 + fst te, snd te)) (trace w) |}.

(** The animator of [w] at clock 0 with nothing recorded yet. *)
Definition origin (w : World) : World :=
  {| clock := 0; pulsePhase := pulsePhase w; led := led w; trace := [] |}.

(** [m] does the same whenever it is run. *)
Definition relocatable {A : Type} (m : M A) : Prop :=
  forall w0 w : World, m (rebase w0 w) = (fst (m w), rebase w0 (snd (m w))).

(** A fuelled computation that, once it has enough fuel to finish, does the
    same with more. *)
Definition fuel_mono (F : nat -> M bool) : Prop :=
  forall (f f' : nat) (w : World),
    fst (F f w) = true -> (f <= f')%nat -> F f' w = F f w.

(** ** What the firmware does to the animator *)

Inductive action : Type :=
| SetState (state : AnimationState)
| Update (d : N).

Definition perform (a : action) (w : World) : World :=
  match a with
  | SetState state => exec (setState state) w
  | Update d => tick d w
  end.

Definition perform_all (acts : list action) (w : World) : World :=
  fold_left (fun w a => perform a w) acts w.

(** The constant of each pattern's test [millis() - lastUpdate > cadence]. *)
Definition cadence_of (s : AnimationState) : Z :=
  match s with
  | IDLE => 20
  | RECORDING => 8
  | PROCESSING => 30
  | UPLOADING => 100
  | SUCCESS => 150
  | ERROR => 50
  | CONNECTING => 200
  | LISTENING => 40
  | BRUTAL_FEEDBACK => 100
  | LOW_BATTERY => 1000
  end.

(** Every value handed to [ledcWrite] along a trace. *)
Definition ledc_writes (tr : list (Z * event)) : list duty :=
  flat_map (fun te => match snd te with
                      | LedcWrite _ d => [d]
                      | _ => []
                      end) tr.

(** The channels written to along a trace. *)
Definition ledc_channels (tr : list (Z * event)) : list Z :=
  flat_map (fun te => match snd te with
                      | LedcWrite ch _ => [ch]
                      | _ => []
                      end) tr.

(** The stored brightness any sequence of calls can produce. *)
Definition brightness_inv (w : World) : Prop :=
  (direction (led w) = true -> -10 <= brightness (led w) <= 255) /\
  (direction (led w) = false -> 0 <= brightness (led w) <= 265) /\
  Forall (fun v => -10 <= v <= 265) (int_duties (trace w)).

(** The band the recording ramp stays in once it is inside. *)
Definition recording_band (w : World) : Prop :=
  (direction (led w) = true -> 41 <= brightness (led w) <= 254) /\
  (direction (led w) = false -> 51 <= brightness (led w) <= 264).

(** ** Evaluating the monad *)

Ltac fw_fields :=
  cbn [fst snd clock pulsePhase led trace ledPin ledChannel lastUpdate
       animationStep brightness direction currentState
       AnimationState_eqb negb] in *.

Ltac fw_unfold :=
  cbv [tick exec update breathingEffect recordingPulse processingSpinner
       uploadingBlink successFlash errorFlash connectingPulse listeningWave
       brutalFeedbackEffect lowBatteryWarning setState elapsed_over
       stamp_lastUpdate write_brightness write_step_parity incr_animationStep
       toggle_brightness when bind ret get modify_led set_lastUpdate
       set_animationStep set_brightness set_direction set_currentState
       get_pulsePhase set_pulsePhase emit millis delay ledcWrite
       Serial_printf advance qualifies elapsed] in *;
  fw_fields.

(** Open a world into its fields. *)
Ltac fw_open w :=
  let c := fresh "now" in
  let p := fresh "phase" in
  let pin := fresh "pin" in
  let ch := fresh "ch" in
  let lu := fresh "last" in
  let st := fresh "step" in
  let b := fresh "b" in
  let dir := fresh "dir" in
  let cur := fresh "cur" in
  let tr := fresh "tr" in
  destruct w as [c p [pin ch lu st b dir cur] tr];
  fw_fields.

(** Split on every test the code makes. *)
Ltac fw_cases :=
  repeat match goal with
         | |- context [if ?c then _ else _] => destruct c eqn:?
         end;
  cbn [andb orb] in *; fw_fields.

Ltac fw_bools :=
  repeat match goal with
         | H : (_ <? _) = true |- _ => apply Z.ltb_lt in H
         | H : (_ <? _) = false |- _ => apply Z.ltb_ge in H
         | H : (_ <=? _) = true |- _ => apply Z.leb_le in H
         | H : (_ <=? _) = false |- _ => apply Z.leb_gt in H
         | H : (_ =? _) = true |- _ => apply Z.eqb_eq in H
         | H : (_ =? _) = false |- _ => apply Z.eqb_neq in H
         | H : (_ && _) = true |- _ => apply andb_true_iff in H; destruct H
         | H : (_ || _) = false |- _ => apply orb_false_iff in H; destruct H
         end.

(** ** Basic facts *)

Lemma wrap_int_small (z : Z) : INT_MIN <= z <= INT_MAX -> wrap_int z = z.
Proof.
  unfold wrap_int, INT_MIN, INT_MAX, ULONG_MOD. intros H.
  rewrite Z.mod_small by lia. lia.
Qed.

(** [int] arithmetic that stays in range. *)
Ltac int_small :=
  unfold int_add, int_sub in *;
  rewrite ?wrap_int_small in * by (unfold INT_MIN, INT_MAX in *; lia).

Lemma AnimationState_eqb_eq (a b : AnimationState) :
  AnimationState_eqb a b = true <-> a = b.
Proof. destruct a, b; cbn; split; congruence. Qed.

Lemma AnimationState_eqb_refl (a : AnimationState) :
  AnimationState_eqb a a = true.
Proof. now apply AnimationState_eqb_eq. Qed.

Lemma AnimationState_eqb_neq (a b : AnimationState) :
  AnimationState_eqb a b = false <-> a <> b.
Proof.
  rewrite <- AnimationState_eqb_eq. destruct (AnimationState_eqb a b); split;
    congruence.
Qed.

Lemma int_duties_app (t1 t2 : list (Z * event)) :
  int_duties (t1 ++ t2) = int_duties t1 ++ int_duties t2.
Proof. unfold int_duties. now rewrite flat_map_app. Qed.

Lemma delays_app (t1 t2 : list (Z * event)) :
  delays (t1 ++ t2) = delays t1 ++ delays t2.
Proof. unfold delays. now rewrite flat_map_app. Qed.

Lemma run_nil (w : World) : run [] w = w.
Proof. reflexivity. Qed.

Lemma run_cons (d : N) (ds : list N) (w : World) :
  run (d :: ds) w = run ds (tick d w).
Proof. reflexivity. Qed.

Lemma run_app (ds1 ds2 : list N) (w : World) :
  run (ds1 ++ ds2) w = run ds2 (run ds1 w).
Proof. unfold run. apply fold_left_app. Qed.

(** *** Elapsed time across the clock's wrap-around *)

Lemma elapsed_since (w : World) (t delta : Z) :
  lastUpdate (led w) = wrap_ulong t ->
  clock w = t + delta ->
  0 <= delta < ULONG_MOD ->
  elapsed w = delta.
Proof.
  intros Hl Hc Hd. unfold elapsed, ulong_sub, wrap_ulong in *.
  rewrite Hl, Hc. rewrite <- Zminus_mod.
  replace (t + delta - t) with delta by lia.
  apply Z.mod_small. exact Hd.
Qed.

Lemma elapsed_after_stamp (d : N) (w : World) :
  freshly_stamped w ->
  elapsed (advance d w) = Z.of_N d mod ULONG_MOD.
Proof.
  unfold freshly_stamped, elapsed, ulong_sub, wrap_ulong. cbn. intros ->.
  rewrite <- Zminus_mod. f_equal. lia.
Qed.

Lemma due_after_stamp (cadence : Z) (d : N) (w : World) :
  freshly_stamped w ->
  (qualifies cadence d w = true -> cadence < Z.of_N d) /\
  (0 <= cadence -> Z.of_N d <= cadence -> qualifies cadence d w = false).
Proof.
  intros Hs. unfold qualifies. rewrite (elapsed_after_stamp d w Hs).
  assert (Hm : 0 <= Z.of_N d mod ULONG_MOD <= Z.of_N d).
  { split.
    - apply Z.mod_pos_bound. reflexivity.
    - apply Z.mod_le; [lia | reflexivity]. }
  split.
  - intros H. apply Z.ltb_lt in H. lia.
  - intros H0 H. apply Z.ltb_ge. lia.
Qed.

Example idle_first_duties :
  int_duties (trace (run (repeat 21%N 4) (boot 2 0))) = [1; 2; 3; 4].
Proof. reflexivity. Qed.

Example idle_turns_at_80 :
  let w := run (repeat 21%N 82) (boot 2 0) in
  brightness (led w) = 78 /\ direction (led w) = false.
Proof. vm_compute. split; reflexivity. Qed.

(** ** [setState] *)

Lemma setState_enters (s : AnimationState) (w : World) :
  currentState (led w) <> s ->
  exec (setState s) w =
  {| clock := clock w;
     pulsePhase := pulsePhase w;
     led := {| ledPin := ledPin (led w);
               ledChannel := ledChannel (led w);
               lastUpdate := lastUpdate (led w);
               animationStep := 0;
               brightness := brightness (led w);
               direction := direction (led w);
               currentState := s |};
     trace := trace w ++ [(clock w, SerialPrintf s)] |}.
Proof.
  fw_open w. intros Hne. fw_unfold.
  replace (AnimationState_eqb cur s) with false
    by (symmetry; now apply AnimationState_eqb_neq).
  reflexivity.
Qed.

Lemma setState_same (s : AnimationState) (w : World) :
  currentState (led w) = s -> exec (setState s) w = w.
Proof.
  fw_open w. intros ->. fw_unfold. now rewrite AnimationState_eqb_refl.
Qed.

Lemma setState_keeps_pulsePhase (s : AnimationState) (w : World) :
  pulsePhase (exec (setState s) w) = pulsePhase w.
Proof. fw_open w. fw_unfold. fw_cases; reflexivity. Qed.

(** C6: when the new state differs from the current one, [setState] makes
    it current and resets [animationStep] to 0, leaving [brightness],
    [direction] and [lastUpdate] as they were; when it is the current
    state already, [setState] changes nothing at all. *)
Theorem setState_contract (w : World) (newState : AnimationState) :
  (newState <> currentState (led w) ->
   let w' := exec (setState newState) w in
   currentState (led w') = newState /\
   animationStep (led w') = 0 /\
   brightness (led w') = brightness (led w) /\
   direction (led w') = direction (led w) /\
   lastUpdate (led w') = lastUpdate (led w)) /\
  (newState = currentState (led w) -> exec (setState newState) w = w).
Proof.
  split.
  - intros Hne. cbv zeta. rewrite setState_enters by congruence.
    repeat split.
  - intros Heq. now apply setState_same.
Qed.

Lemma setState_contract_witness :
  (let w' := exec (setState RECORDING) (boot 2 0) in
   currentState (led w') = RECORDING /\
   animationStep (led w') = 0 /\
   brightness (led w') = brightness (led (boot 2 0)) /\
   direction (led w') = direction (led (boot 2 0)) /\
   lastUpdate (led w') = lastUpdate (led (boot 2 0))) /\
  exec (setState IDLE) (boot 2 0) = boot 2 0.
Proof.
  split.
  - apply (proj1 (setState_contract (boot 2 0) RECORDING)). discriminate.
  - apply (proj2 (setState_contract (boot 2 0) IDLE)). reflexivity.
Defined.

(** ** Time only moves forward *)

Lemma stamped_from_weaken (t t' : Z) (evs : list (Z * event)) :
  t' <= t -> stamped_from t evs -> stamped_from t' evs.
Proof.
  unfold stamped_from. intros Hle H.
  eapply Forall_impl; [| exact H]. cbn. intros; lia.
Qed.

Lemma tick_extends_trace (d : N) (w : World) :
  exists evs,
    trace (tick d w) = trace w ++ evs /\
    stamped_from (clock w + Z.of_N d) evs /\
    clock w + Z.of_N d <= clock (tick d w).
Proof.
  fw_open w. destruct cur; fw_unfold; fw_cases;
    rewrite <- ?app_assoc; cbn [app];
    first [ exists []; rewrite app_nil_r; split; [reflexivity |];
            split; [constructor | lia]
          | eexists; split; [reflexivity |];
            split; [repeat constructor; cbn; lia | lia] ].
Qed.

Lemma run_extends_trace (ds : list N) (w : World) :
  exists evs,
    trace (run ds w) = trace w ++ evs /\
    stamped_from (clock w) evs /\
    clock w <= clock (run ds w).
Proof.
  revert w. induction ds as [| d ds IH]; intros w.
  - exists []. rewrite app_nil_r. repeat split; [constructor | cbn; lia].
  - rewrite run_cons.
    destruct (tick_extends_trace d w) as (e1 & Ht1 & Hs1 & Hc1).
    destruct (IH (tick d w)) as (e2 & Ht2 & Hs2 & Hc2).
    exists (e1 ++ e2). rewrite Ht2, Ht1, app_assoc.
    split; [reflexivity |]. split; [| lia].
    apply Forall_app. split.
    + eapply stamped_from_weaken; [| exact Hs1]. lia.
    + eapply stamped_from_weaken; [| exact Hs2]. lia.
Qed.

Lemma run_stamped_from_clock (ds : list N) (w : World) :
  exists evs,
    trace (run ds w) = trace w ++ evs /\ stamped_from (clock w) evs.
Proof.
  destruct (run_extends_trace ds w) as (evs & Ht & Hs & _). eauto.
Qed.

(** ** The range of the written duty *)

(** C1: the code does not keep the duty within [0, 255].  From boot,
    [setState(RECORDING)] and 26 ticks 9 ms apart write 10, 20, ..., 250 and
    then 260, which is also the stored [brightness]; nothing clamps it.
    The idle ramp entered with [direction == false] and [brightness == 0]
    (left so by the uploading blink) writes -1. *)
Theorem recording_overshoots_duty_range :
  (let w := run (repeat 9%N 26) (exec (setState RECORDING) (boot 2 0)) in
   int_duties (trace w) =
     [10; 20; 30; 40; 50; 60; 70; 80; 90; 100; 110; 120; 130; 140; 150; 160;
      170; 180; 190; 200; 210; 220; 230; 240; 250; 260] /\
   brightness (led w) = 260 /\
   ~ (0 <= brightness (led w) <= 255)) /\
  (let w80 := run (repeat 21%N 80) (boot 2 0) in
   let wup := tick 101 (exec (setState UPLOADING) w80) in
   let w := tick 21 (exec (setState IDLE) wup) in
   brightness (led w80) = 80 /\
   brightness (led wup) = 0 /\
   int_duties (trace w) = int_duties (trace wup) ++ [-1] /\
   brightness (led w) = -1).
Proof.
  split.
  - vm_compute. repeat split; try reflexivity.
    intros [_ H]. apply H. reflexivity.
  - vm_compute. repeat split; reflexivity.
Qed.

(** ** Sleeping inside [update] *)

(** C2 (as the code has it): one call of [update()] sleeps exactly at the
    three pauses, and it sleeps by calling [delay]: 300 ms when the idle
    ramp comes down to 0 or below, 600 ms at the fifth connecting phase,
    500 ms at the first call of the brutal-feedback pattern.  The call
    returns that much later.  In every other case, and in the seven other
    states always, it does not sleep.  [lastUpdate] is never set ahead of
    the clock: it is left alone or set to [millis()] as read on entry. *)
Theorem update_sleeps_exactly_at_pauses (w : World) (d : N) :
  let w0 := advance d w in
  let w' := tick d w in
  delays (trace w') = delays (trace w) ++ pauses w0 /\
  clock w' = clock w0 + fold_right Z.add 0 (pauses w0) /\
  (lastUpdate (led w') = lastUpdate (led w) \/
   lastUpdate (led w') = wrap_ulong (clock w0)).
Proof.
  fw_open w. unfold pauses. destruct cur; fw_unfold; fw_cases; fw_bools;
    subst; try lia; try discriminate;
    rewrite ?delays_app; cbn; rewrite ?app_nil_r;
    (split; [reflexivity |]); (split; [lia | auto]).
Qed.

(** C2 fails as stated: the 160th idle tick after boot brings the ramp back
    to 0, and that call of [update()] sleeps 300 ms before it returns;
    [lastUpdate] holds the time of entry, not a deferred time. *)
Lemma update_sleeps_at_idle_bottom :
  let w := run (repeat 21%N 159) (boot 2 0) in
  currentState (led w) = IDLE /\
  delays (trace w) = [] /\
  delays (trace (tick 21 w)) = [300] /\
  clock (tick 21 w) = clock w + 21 + 300 /\
  lastUpdate (led (tick 21 w)) = clock w + 21.
Proof. vm_compute. repeat split; reflexivity. Qed.

(** ** The success pattern *)

Lemma success_step (d : N) (w : World) :
  currentState (led w) = SUCCESS ->
  0 <= animationStep (led w) < 6 ->
  qualifies 150 d w = true ->
  currentState (led (tick d w)) = SUCCESS /\
  animationStep (led (tick d w)) = animationStep (led w) + 1 /\
  int_duties (trace (tick d w)) =
    int_duties (trace w) ++ flash_duties (animationStep (led w)) 1.
Proof.
  fw_open w. intros -> Hs Hq. fw_unfold. rewrite Hq.
  replace (step <? 6) with true by (symmetry; apply Z.ltb_lt; lia).
  cbn [andb]. fw_fields. rewrite int_duties_app. int_small.
  repeat split.
Qed.

(** A tick that is not due only lets time pass. *)
Lemma success_idle_step (d : N) (w : World) :
  currentState (led w) = SUCCESS ->
  animationStep (led w) < 6 ->
  qualifies 150 d w = false ->
  tick d w = advance d w.
Proof.
  fw_open w. intros -> Hs Hq. fw_unfold. rewrite Hq, andb_false_r.
  replace (6 <=? step) with false by (symmetry; apply Z.leb_gt; lia).
  reflexivity.
Qed.

Lemma success_finish (d : N) (w : World) :
  currentState (led w) = SUCCESS ->
  6 <= animationStep (led w) ->
  currentState (led (tick d w)) = IDLE /\
  animationStep (led (tick d w)) = 0 /\
  int_duties (trace (tick d w)) = int_duties (trace w).
Proof.
  fw_open w. intros -> Hs. fw_unfold.
  replace (step <? 6) with false by (symmetry; apply Z.ltb_ge; lia).
  replace (6 <=? step) with true by (symmetry; apply Z.leb_le; lia).
  cbn. rewrite int_duties_app, app_nil_r. repeat split.
Qed.

Lemma success_run (ds : list N) (w : World) :
  currentState (led w) = SUCCESS ->
  0 <= animationStep (led w) ->
  animationStep (led w) + Z.of_nat (length ds) <= 6 ->
  all_qualify 150 ds w = true ->
  currentState (led (run ds w)) = SUCCESS /\
  animationStep (led (run ds w))
  = animationStep (led w) + Z.of_nat (length ds) /\
  int_duties (trace (run ds w)) =
    int_duties (trace w) ++ flash_duties (animationStep (led w)) (length ds).
Proof.
  revert w. induction ds as [| d ds IH]; intros w Hc H0 Hn Hq.
  - cbn. rewrite app_nil_r, Z.add_0_r. auto.
  - cbn [length all_qualify] in *. rewrite Nat2Z.inj_succ in *.
    apply andb_true_iff in Hq. destruct Hq as [Hq1 Hq2].
    destruct (success_step d w Hc ltac:(lia) Hq1) as (Hc' & Hs' & Ht').
    destruct (IH (tick d w) Hc' ltac:(lia) ltac:(lia) Hq2)
      as (Hc2 & Hs2 & Ht2).
    rewrite run_cons. split; [exact Hc2 |]. split; [lia |].
    rewrite Ht2, Ht', Hs', <- app_assoc. reflexivity.
Qed.

(** C3 (as the code has it): in state SUCCESS with [animationStep == 0],
    six ticks that each find [millis() - lastUpdate > 150] (more than
    150 ms, in unsigned 32-bit arithmetic) write 0, 255, 0, 255, 0, 255;
    the state is still SUCCESS then, and the next call of [update()],
    whatever time has passed, makes the state IDLE with [animationStep]
    back at 0 and writes nothing. *)
Theorem success_six_flashes_then_idle (w : World) (ds : list N) :
  currentState (led w) = SUCCESS ->
  animationStep (led w) = 0 ->
  length ds = 6%nat ->
  all_qualify 150 ds w = true ->
  let w6 := run ds w in
  int_duties (trace w6) = int_duties (trace w) ++ [0; 255; 0; 255; 0; 255] /\
  currentState (led w6) = SUCCESS /\
  forall d : N,
    currentState (led (tick d w6)) = IDLE /\
    animationStep (led (tick d w6)) = 0 /\
    int_duties (trace (tick d w6)) = int_duties (trace w6).
Proof.
  intros Hc Hs Hlen Hq.
  destruct (success_run ds w Hc) as (Hc6 & Hs6 & Ht6);
    [lia | rewrite Hlen; cbn; lia | exact Hq |].
  rewrite Hlen, Hs in *. cbv zeta. split; [exact Ht6 |]. split; [exact Hc6 |].
  intros d. apply success_finish; [exact Hc6 | cbn in Hs6; lia].
Qed.

Lemma success_six_flashes_then_idle_witness :
  let w := exec (setState SUCCESS) (boot 2 0) in
  let w6 := run (repeat 151%N 6) w in
  int_duties (trace w6) = int_duties (trace w) ++ [0; 255; 0; 255; 0; 255] /\
  currentState (led w6) = SUCCESS /\
  forall d : N,
    currentState (led (tick d w6)) = IDLE /\
    animationStep (led (tick d w6)) = 0 /\
    int_duties (trace (tick d w6)) = int_duties (trace w6).
Proof.
  apply (success_six_flashes_then_idle
           (exec (setState SUCCESS) (boot 2 0)) (repeat 151%N 6));
    reflexivity.
Defined.

(** C3 fails as stated: a tick exactly 150 ms after the previous update
    does not satisfy the test [> 150].  From boot in SUCCESS, the first tick
    at 150 ms writes nothing; of six ticks 150 ms apart only three write,
    and the seventh leaves the state at SUCCESS. *)
Lemma success_ticks_150_apart_do_not_qualify :
  let w := exec (setState SUCCESS) (boot 2 0) in
  currentState (led w) = SUCCESS /\
  animationStep (led w) = 0 /\
  qualifies 150 150 w = false /\
  int_duties (trace (tick 150 w)) = [] /\
  int_duties (trace (run (repeat 150%N 6) w)) = [0; 255; 0] /\
  int_duties (trace (run (repeat 150%N 6) w)) <> [0; 255; 0; 255; 0; 255] /\
  currentState (led (run (repeat 150%N 7) w)) = SUCCESS /\
  currentState (led (run (repeat 150%N 7) w)) <> IDLE.
Proof. vm_compute. repeat split; try reflexivity; discriminate. Qed.

(** ** The brutal-feedback pattern *)

Lemma brutal_entry (d : N) (w : World) :
  currentState (led w) = BRUTAL_FEEDBACK ->
  animationStep (led w) = 0 ->
  trace (tick d w) =
    trace w ++ [(clock w + Z.of_N d, LedcWrite (ledChannel (led w)) (Int 0));
                (clock w + Z.of_N d, Delay 500)] /\
  clock (tick d w) = clock w + Z.of_N d + 500 /\
  currentState (led (tick d w)) = BRUTAL_FEEDBACK /\
  animationStep (led (tick d w)) = 1 /\
  lastUpdate (led (tick d w)) = lastUpdate (led w).
Proof.
  fw_open w. intros -> ->. fw_unfold. cbn.
  rewrite <- app_assoc. repeat split.
Qed.

Lemma brutal_step (d : N) (w : World) :
  currentState (led w) = BRUTAL_FEEDBACK ->
  1 <= animationStep (led w) <= 6 ->
  qualifies 100 d w = true ->
  currentState (led (tick d w)) = BRUTAL_FEEDBACK /\
  animationStep (led (tick d w)) = animationStep (led w) + 1 /\
  int_duties (trace (tick d w)) =
    int_duties (trace w) ++ flash_duties (animationStep (led w)) 1.
Proof.
  fw_open w. intros -> Hs Hq. fw_unfold.
  replace (step =? 0) with false by (symmetry; apply Z.eqb_neq; lia).
  replace (step <=? 6) with true by (symmetry; apply Z.leb_le; lia).
  fw_unfold. rewrite Hq. cbn [andb]. fw_fields.
  rewrite int_duties_app. int_small. repeat split.
Qed.

Lemma brutal_finish (d : N) (w : World) :
  currentState (led w) = BRUTAL_FEEDBACK ->
  6 < animationStep (led w) ->
  currentState (led (tick d w)) = LISTENING /\
  animationStep (led (tick d w)) = 0 /\
  int_duties (trace (tick d w)) = int_duties (trace w).
Proof.
  fw_open w. intros -> Hs. fw_unfold.
  replace (step =? 0) with false by (symmetry; apply Z.eqb_neq; lia).
  replace (step <=? 6) with false by (symmetry; apply Z.leb_gt; lia).
  replace (6 <? step) with true by (symmetry; apply Z.ltb_lt; lia).
  cbn. fw_unfold. rewrite int_duties_app, app_nil_r. repeat split.
Qed.

Lemma brutal_run (ds : list N) (w : World) :
  currentState (led w) = BRUTAL_FEEDBACK ->
  1 <= animationStep (led w) ->
  animationStep (led w) + Z.of_nat (length ds) <= 7 ->
  all_qualify 100 ds w = true ->
  currentState (led (run ds w)) = BRUTAL_FEEDBACK /\
  animationStep (led (run ds w))
  = animationStep (led w) + Z.of_nat (length ds) /\
  int_duties (trace (run ds w)) =
    int_duties (trace w) ++ flash_duties (animationStep (led w)) (length ds).
Proof.
  revert w. induction ds as [| d ds IH]; intros w Hc H0 Hn Hq.
  - cbn. rewrite app_nil_r, Z.add_0_r. auto.
  - cbn [length all_qualify] in *. rewrite Nat2Z.inj_succ in *.
    apply andb_true_iff in Hq. destruct Hq as [Hq1 Hq2].
    destruct (brutal_step d w Hc ltac:(lia) Hq1) as (Hc' & Hs' & Ht').
    destruct (IH (tick d w) Hc' ltac:(lia) ltac:(lia) Hq2)
      as (Hc2 & Hs2 & Ht2).
    rewrite run_cons. split; [exact Hc2 |]. split; [lia |].
    rewrite Ht2, Ht', Hs', <- app_assoc. reflexivity.
Qed.

(** A flash stamps [lastUpdate] and does not sleep. *)
Lemma brutal_flash (d : N) (w : World) :
  currentState (led w) = BRUTAL_FEEDBACK ->
  1 <= animationStep (led w) <= 6 ->
  qualifies 100 d w = true ->
  trace (tick d w) =
    trace w ++ flash_events (ledChannel (led w)) (clock w)
                 (animationStep (led w)) [d] /\
  clock (tick d w) = clock w + Z.of_N d /\
  freshly_stamped (tick d w) /\
  ledChannel (led (tick d w)) = ledChannel (led w).
Proof.
  unfold freshly_stamped.
  fw_open w. intros -> Hs Hq. fw_unfold.
  replace (step =? 0) with false by (symmetry; apply Z.eqb_neq; lia).
  replace (step <=? 6) with true by (symmetry; apply Z.leb_le; lia).
  fw_unfold. rewrite Hq. cbn [andb]. fw_fields. repeat split.
Qed.

(** Between flashes, a tick that is not due only lets time pass. *)
Lemma brutal_idle_step (d : N) (w : World) :
  currentState (led w) = BRUTAL_FEEDBACK ->
  1 <= animationStep (led w) <= 6 ->
  qualifies 100 d w = false ->
  tick d w = advance d w.
Proof.
  fw_open w. intros -> Hs Hq. fw_unfold.
  replace (step =? 0) with false by (symmetry; apply Z.eqb_neq; lia).
  fw_unfold. rewrite Hq, andb_false_r.
  replace (6 <? step) with false by (symmetry; apply Z.ltb_ge; lia).
  reflexivity.
Qed.

Lemma brutal_run_trace (ds : list N) (w : World) :
  currentState (led w) = BRUTAL_FEEDBACK ->
  1 <= animationStep (led w) ->
  animationStep (led w) + Z.of_nat (length ds) <= 7 ->
  all_qualify 100 ds w = true ->
  trace (run ds w) =
    trace w ++ flash_events (ledChannel (led w)) (clock w)
                 (animationStep (led w)) ds /\
  (ds <> [] -> freshly_stamped (run ds w)).
Proof.
  revert w. induction ds as [| d ds IH]; intros w Hc H0 Hn Hq.
  - cbn. rewrite app_nil_r. split; [reflexivity | congruence].
  - cbn [length all_qualify] in *. rewrite Nat2Z.inj_succ in *.
    apply andb_true_iff in Hq. destruct Hq as [Hq1 Hq2].
    destruct (brutal_step d w Hc ltac:(lia) Hq1) as (Hc' & Hs' & _).
    destruct (brutal_flash d w Hc ltac:(lia) Hq1) as (Ht & Hk & Hst & Hch).
    destruct (IH (tick d w) Hc' ltac:(lia) ltac:(lia) Hq2) as (Ht2 & Hst2).
    rewrite run_cons. split.
    + rewrite Ht2, Ht, Hch, Hk, Hs', <- app_assoc. reflexivity.
    + intros _. destruct ds as [| d' ds']; [exact Hst |].
      apply Hst2. discriminate.
Qed.

(** From a fresh stamp on, ticks that are due are more than 100 ms apart. *)
Lemma brutal_gaps (ds : list N) (w : World) :
  currentState (led w) = BRUTAL_FEEDBACK ->
  1 <= animationStep (led w) ->
  animationStep (led w) + Z.of_nat (length ds) <= 7 ->
  freshly_stamped w ->
  all_qualify 100 ds w = true ->
  Forall (fun d => 100 < Z.of_N d) ds.
Proof.
  revert w. induction ds as [| d ds IH]; intros w Hc H0 Hn Hst Hq.
  - constructor.
  - cbn [length all_qualify] in *. rewrite Nat2Z.inj_succ in *.
    apply andb_true_iff in Hq. destruct Hq as [Hq1 Hq2].
    destruct (brutal_step d w Hc ltac:(lia) Hq1) as (Hc' & Hs' & _).
    destruct (brutal_flash d w Hc ltac:(lia) Hq1) as (_ & _ & Hst' & _).
    constructor.
    + now apply (due_after_stamp 100 d w Hst).
    + apply (IH (tick d w)); auto; lia.
Qed.

(** C4: after [setState(BRUTAL_FEEDBACK)] from any other state, the first
    [update()], whatever time has passed, writes duty 0 and returns 500 ms
    later, so that nothing more is written before then.  Six ticks that are
    due then write 255, 0, 255, 0, 255, 0, each at its own clock reading;
    every flash stamps [lastUpdate], so each flash after the first comes
    more than 100 ms after the one before, and a tick no more than 100 ms
    after a flash does nothing.  The next [update()] after the six flashes
    makes the state LISTENING. *)
Theorem brutal_feedback_pattern (w : World) (d0 : N) :
  currentState (led w) <> BRUTAL_FEEDBACK ->
  let w0 := exec (setState BRUTAL_FEEDBACK) w in
  let t0 := clock w + Z.of_N d0 in
  let w1 := tick d0 w0 in
  trace w1 = trace w0 ++ [(t0, LedcWrite (ledChannel (led w)) (Int 0));
                          (t0, Delay 500)] /\
  clock w1 = t0 + 500 /\
  (forall ds : list N,
     exists evs, trace (run ds w1) = trace w1 ++ evs /\
                 stamped_from (t0 + 500) evs) /\
  (forall ds : list N,
     length ds = 6%nat ->
     all_qualify 100 ds w1 = true ->
     let w7 := run ds w1 in
     trace w7
     = trace w1 ++ flash_events (ledChannel (led w)) (t0 + 500) 1 ds /\
     Forall (fun d => 100 < Z.of_N d) (tl ds) /\
     int_duties (trace w7)
     = int_duties (trace w1) ++ [255; 0; 255; 0; 255; 0] /\
     currentState (led w7) = BRUTAL_FEEDBACK /\
     forall d : N, currentState (led (tick d w7)) = LISTENING) /\
  (forall (ds : list N) (d : N),
     (1 <= length ds <= 5)%nat ->
     all_qualify 100 ds w1 = true ->
     Z.of_N d <= 100 ->
     tick d (run ds w1) = advance d (run ds w1)).
Proof.
  intros Hne. cbv zeta.
  pose proof (setState_enters BRUTAL_FEEDBACK w Hne) as Hw0.
  set (w0 := exec (setState BRUTAL_FEEDBACK) w) in *.
  assert (Hc : currentState (led w0) = BRUTAL_FEEDBACK) by now rewrite Hw0.
  assert (Hs : animationStep (led w0) = 0) by now rewrite Hw0.
  assert (Hch : ledChannel (led w0) = ledChannel (led w)) by now rewrite Hw0.
  assert (Hck : clock w0 = clock w) by now rewrite Hw0.
  destruct (brutal_entry d0 w0 Hc Hs) as (Ht & Hk & Hc1 & Hs1 & _).
  assert (Hch1 : ledChannel (led (tick d0 w0)) = ledChannel (led w)).
  { rewrite <- Hch. clear - Hc Hs. fw_open w0. subst. fw_unfold. reflexivity. }
  rewrite Hch, Hck in Ht. rewrite Hck in Hk.
  split; [exact Ht |]. split; [exact Hk |]. split; [| split].
  - intros ds. rewrite <- Hk. apply run_stamped_from_clock.
  - intros ds Hlen Hq.
    destruct (brutal_run ds _ Hc1) as (Hc7 & Hs7 & Ht7);
      [lia | rewrite Hlen, Hs1; cbn; lia | exact Hq |].
    destruct (brutal_run_trace ds _ Hc1) as (Htr & _);
      [lia | rewrite Hlen, Hs1; cbn; lia | exact Hq |].
    rewrite Hlen, Hs1 in *. rewrite Hch1, Hk in Htr.
    split; [exact Htr |]. split.
    + destruct ds as [| d1 ds']; [constructor |].
      cbn [tl all_qualify length] in *.
      apply andb_true_iff in Hq. destruct Hq as [Hq1 Hq2].
      destruct (brutal_step d1 _ Hc1 ltac:(lia) Hq1) as (Hc2 & Hs2 & _).
      destruct (brutal_flash d1 _ Hc1 ltac:(lia) Hq1) as (_ & _ & Hst2 & _).
      injection Hlen as Hlen.
      apply (brutal_gaps ds' (tick d1 (tick d0 w0))); auto; lia.
    + split; [exact Ht7 |]. split; [exact Hc7 |].
      intros d. apply brutal_finish; [exact Hc7 | cbn in Hs7; lia].
  - intros ds d Hlen Hq Hd.
    destruct (brutal_run ds _ Hc1) as (Hc7 & Hs7 & _);
      [lia | rewrite Hs1; lia | exact Hq |].
    destruct (brutal_run_trace ds _ Hc1) as (_ & Hst);
      [lia | rewrite Hs1; lia | exact Hq |].
    apply brutal_idle_step; [exact Hc7 | rewrite Hs7, Hs1; lia |].
    apply due_after_stamp; [| lia | exact Hd].
    apply Hst. destruct ds; [cbn in Hlen; lia | discriminate].
Qed.

Lemma brutal_feedback_pattern_witness :
  let w := boot 2 0 in
  let w0 := exec (setState BRUTAL_FEEDBACK) w in
  let w1 := tick 3 w0 in
  (length (repeat 101%N 6) = 6%nat /\
   all_qualify 100 (repeat 101%N 6) w1 = true /\
   flash_events 0 503 1 (repeat 101%N 6)
   = [(604, LedcWrite 0 (Int 255)); (705, LedcWrite 0 (Int 0));
      (806, LedcWrite 0 (Int 255)); (907, LedcWrite 0 (Int 0));
      (1008, LedcWrite 0 (Int 255)); (1109, LedcWrite 0 (Int 0))]) /\
  trace w1 = trace w0 ++ [(3, LedcWrite 0 (Int 0)); (3, Delay 500)] /\
  clock w1 = 503 /\
  (forall ds : list N,
     exists evs, trace (run ds w1) = trace w1 ++ evs /\
                 stamped_from 503 evs) /\
  (forall ds : list N,
     length ds = 6%nat ->
     all_qualify 100 ds w1 = true ->
     let w7 := run ds w1 in
     trace w7 = trace w1 ++ flash_events 0 503 1 ds /\
     Forall (fun d => 100 < Z.of_N d) (tl ds) /\
     int_duties (trace w7)
     = int_duties (trace w1) ++ [255; 0; 255; 0; 255; 0] /\
     currentState (led w7) = BRUTAL_FEEDBACK /\
     forall d : N, currentState (led (tick d w7)) = LISTENING) /\
  (forall (ds : list N) (d : N),
     (1 <= length ds <= 5)%nat ->
     all_qualify 100 ds w1 = true ->
     Z.of_N d <= 100 ->
     tick d (run ds w1) = advance d (run ds w1)).
Proof.
  split; [repeat split |].
  apply (brutal_feedback_pattern (boot 2 0) 3). discriminate.
Defined.

(** ** The connecting pattern *)

Lemma connecting_step (d : N) (w : World) :
  currentState (led w) = CONNECTING ->
  qualifies 200 d w = true ->
  0 <= pulsePhase w <= 4 ->
  currentState (led (tick d w)) = CONNECTING /\
  pulsePhase (tick d w) = (if pulsePhase w =? 4 then 0 else pulsePhase w + 1) /\
  int_duties (trace (tick d w)) =
    int_duties (trace w)
    ++ [if (pulsePhase w =? 0) || (pulsePhase w =? 2) then 255 else 0] /\
  delays (trace (tick d w)) =
    delays (trace w) ++ (if pulsePhase w =? 4 then [600] else []).
Proof.
  fw_open w. intros -> Hq Hp. fw_unfold. rewrite Hq.
  fw_cases; fw_bools; subst; try lia; try discriminate;
    fw_unfold; int_small;
    rewrite ?int_duties_app, ?delays_app; cbn; rewrite ?app_nil_r;
    repeat split; lia.
Qed.

(** X13: within one stay in CONNECTING, from phase 0, five ticks that are
    due (more than 200 ms) write 255, 0, 255, 0, 0; the fifth sleeps 600 ms
    and leaves the phase at 0. *)
Lemma connecting_cycle (w : World) (ds : list N) :
  currentState (led w) = CONNECTING ->
  pulsePhase w = 0 ->
  length ds = 5%nat ->
  all_qualify 200 ds w = true ->
  int_duties (trace (run ds w)) = int_duties (trace w) ++ [255; 0; 255; 0; 0] /\
  delays (trace (run ds w)) = delays (trace w) ++ [600] /\
  pulsePhase (run ds w) = 0.
Proof.
  intros Hc Hp Hlen Hq.
  destruct ds as [| d1 [| d2 [| d3 [| d4 [| d5 [| ? ?]]]]]]; try discriminate.
  cbn [all_qualify] in Hq.
  repeat match goal with
         | H : qualifies 200 _ _ && _ = true |- _ =>
             apply andb_true_iff in H; destruct H
         end.
  rewrite !run_cons, run_nil.
  destruct (connecting_step d1 w) as (C1 & P1 & I1 & D1); [auto | auto | lia |].
  rewrite Hp in P1, I1, D1. cbn in P1, I1, D1.
  destruct (connecting_step d2 (tick d1 w)) as (C2 & P2 & I2 & D2);
    [auto | auto | lia |].
  rewrite P1 in P2, I2, D2. cbn in P2, I2, D2.
  destruct (connecting_step d3 (tick d2 (tick d1 w))) as (C3 & P3 & I3 & D3);
    [auto | auto | lia |].
  rewrite P2 in P3, I3, D3. cbn in P3, I3, D3.
  destruct (connecting_step d4 (tick d3 (tick d2 (tick d1 w))))
    as (C4 & P4 & I4 & D4); [auto | auto | lia |].
  rewrite P3 in P4, I4, D4. cbn in P4, I4, D4.
  destruct (connecting_step d5 (tick d4 (tick d3 (tick d2 (tick d1 w)))))
    as (C5 & P5 & I5 & D5); [auto | auto | lia |].
  rewrite P4 in P5, I5, D5. cbn in P5, I5, D5.
  rewrite I5, I4, I3, I2, I1, D5, D4, D3, D2, D1, P5.
  rewrite ?app_nil_r, <- ?app_assoc. cbn. repeat split.
Qed.

(** C5: the code does not restart the connecting phase on a transition.
    [setState] never touches [pulsePhase]; after one connecting tick (255
    written, phase 1), leaving for IDLE and coming back resets
    [animationStep] but leaves the phase at 1, so the first tick after
    re-entry writes 0 where phase 0 would write 255. *)
Theorem connecting_phase_survives_reentry :
  (forall (s : AnimationState) (w : World),
     pulsePhase (exec (setState s) w) = pulsePhase w) /\
  let w1 := tick 201 (exec (setState CONNECTING) (boot 2 0)) in
  let w2 := exec (setState CONNECTING) (exec (setState IDLE) w1) in
  int_duties (trace w1) = [255] /\
  currentState (led w2) = CONNECTING /\
  animationStep (led w2) = 0 /\
  pulsePhase w2 = 1 /\
  qualifies 200 201 w2 = true /\
  int_duties (trace (tick 201 w2)) = int_duties (trace w2) ++ [0].
Proof.
  split; [exact setState_keeps_pulsePhase |].
  vm_compute. repeat split; reflexivity.
Qed.

(** ** The idle pattern *)

(** One step of the idle ramp.  A tick that is due (more than 20 ms),
    taken at clock [t], moves the duty by one.  Ascending, it writes
    [brightness + 1] and turns the ramp round when that reaches 80.
    Descending, it writes [brightness - 1] and turns the ramp round when
    that reaches 0; on that tick [update()] first sleeps 300 ms and then
    writes the duty. *)
Theorem idle_breathing_step (w : World) (d : N) :
  currentState (led w) = IDLE ->
  qualifies 20 d w = true ->
  INT_MIN < brightness (led w) < INT_MAX ->
  let t := clock w + Z.of_N d in
  let b := brightness (led w) in
  let ch := ledChannel (led w) in
  let w' := tick d w in
  lastUpdate (led w') = wrap_ulong t /\
  (direction (led w) = true ->
     brightness (led w') = b + 1 /\
     trace w' = trace w ++ [(t, LedcWrite ch (Int (b + 1)))] /\
     direction (led w') = (b + 1 <? 80) /\
     clock w' = t) /\
  (direction (led w) = false ->
     brightness (led w') = b - 1 /\
     direction (led w') = (b - 1 <=? 0) /\
     (0 < b - 1 ->
        trace w' = trace w ++ [(t, LedcWrite ch (Int (b - 1)))] /\
        clock w' = t) /\
     (b - 1 <= 0 ->
        trace w' = trace w ++ [(t, Delay 300);
                               (t + 300, LedcWrite ch (Int (b - 1)))] /\
        clock w' = t + 300 /\
        forall ds : list N,
          exists evs, trace (run ds w') = trace w' ++ evs /\
                      stamped_from (t + 300) evs)).
Proof.
  intros Hc Hq Hb. cbv zeta.
  pose proof (fun ds => run_stamped_from_clock ds (tick d w)) as Hlater.
  revert Hlater. fw_open w. subst cur. fw_unfold. rewrite Hq.
  destruct dir; fw_unfold; int_small; intros Hlater.
  - split; [| split; [| discriminate]].
    + fw_cases; reflexivity.
    + intros _. rewrite Z.ltb_antisym. fw_cases; repeat split.
  - split; [| split; [discriminate |]].
    + fw_cases; reflexivity.
    + intros _. revert Hlater. fw_cases; fw_bools; intros Hlater;
        (split; [reflexivity |]); (split; [reflexivity |]);
        (split; [intros; try lia | intros; try lia]).
      * split; [now rewrite <- app_assoc |].
        split; [reflexivity | exact Hlater].
      * repeat split.
Qed.

Lemma idle_breathing_step_witness :
  let w := run (repeat 21%N 159) (boot 2 0) in
  let w' := tick 21 w in
  (brightness (led w) = 1 /\ direction (led w) = false /\ clock w = 3339) /\
  lastUpdate (led w') = 3360 /\
  (direction (led w) = true ->
     brightness (led w') = 2 /\
     trace w' = trace w ++ [(3360, LedcWrite 0 (Int 2))] /\
     direction (led w') = true /\
     clock w' = 3360) /\
  (direction (led w) = false ->
     brightness (led w') = 0 /\
     direction (led w') = true /\
     (0 < 0 ->
        trace w' = trace w ++ [(3360, LedcWrite 0 (Int 0))] /\
        clock w' = 3360) /\
     (0 <= 0 ->
        trace w' = trace w ++ [(3360, Delay 300);
                               (3660, LedcWrite 0 (Int 0))] /\
        clock w' = 3660 /\
        forall ds : list N,
          exists evs, trace (run ds w') = trace w' ++ evs /\
                      stamped_from 3660 evs)).
Proof.
  split; [repeat split |].
  apply (idle_breathing_step (run (repeat 21%N 159) (boot 2 0)) 21);
    [reflexivity | reflexivity | split; reflexivity].
Defined.

(** The bottom of the ramp: the tick that brings the duty to 0 (or below)
    sleeps first and writes afterwards, with [lastUpdate] at the time of
    entry, so the next [update()] is due whenever it comes and moves the
    duty up again. *)
Lemma idle_bottom_then_next (w : World) (d d' : N) :
  currentState (led w) = IDLE ->
  direction (led w) = false ->
  qualifies 20 d w = true ->
  INT_MIN < brightness (led w) <= 1 ->
  300 + Z.of_N d' < ULONG_MOD ->
  let t := clock w + Z.of_N d in
  let b := brightness (led w) in
  let ch := ledChannel (led w) in
  trace (tick d' (tick d w)) =
    trace w ++ [(t, Delay 300);
                (t + 300, LedcWrite ch (Int (b - 1)));
                (t + 300 + Z.of_N d', LedcWrite ch (Int b))].
Proof.
  intros Hc Hdir Hq Hb Hd'. cbv zeta.
  assert (Hq' : qualifies 20 d' (tick d w) = true).
  { unfold qualifies. apply Z.ltb_lt.
    rewrite (elapsed_since _ (clock w + Z.of_N d) (300 + Z.of_N d')); [lia | | | lia].
    - clear Hd'. fw_open w. subst. fw_unfold. rewrite Hq. fw_unfold.
      int_small.
      replace (b - 1 <=? 0) with true by (symmetry; apply Z.leb_le; lia).
      reflexivity.
    - clear Hd'. fw_open w. subst. fw_unfold. rewrite Hq. fw_unfold.
      int_small.
      replace (b - 1 <=? 0) with true by (symmetry; apply Z.leb_le; lia).
      fw_fields. lia. }
  revert Hq'. clear Hd'. fw_open w. subst. fw_unfold. rewrite Hq. fw_unfold.
  int_small.
  replace (b - 1 <=? 0) with true by (symmetry; apply Z.leb_le; lia).
  fw_unfold. intros Hq'. rewrite Hq'. fw_unfold. int_small.
  replace (80 <=? b - 1 + 1) with false by (symmetry; apply Z.leb_gt; lia).
  cbn. rewrite <- !app_assoc. cbn.
  replace (b - 1 + 1) with b by lia. reflexivity.
Qed.

(** C7: the code pauses before it writes the bottom value, not after.
    After 159 idle ticks the LED is at duty 1 (written at 3339).  The next
    tick, at 3360, sleeps 300 ms and writes 0 at 3660; an [update()] that
    follows at once is due and writes 1 at 3660.  The LED rests at duty 1;
    duty 0 is not held for 300 ms. *)
Theorem idle_pause_comes_before_the_bottom_write :
  let w := run (repeat 21%N 159) (boot 2 0) in
  let w1 := tick 21 w in
  let w2 := tick 0 w1 in
  currentState (led w) = IDLE /\
  last (trace w) (0, Delay 0) = (3339, LedcWrite 0 (Int 1)) /\
  trace w1 = trace w ++ [(3360, Delay 300); (3660, LedcWrite 0 (Int 0))] /\
  lastUpdate (led w1) = 3360 /\
  qualifies 20 0 w1 = true /\
  trace w2 = trace w1 ++ [(3660, LedcWrite 0 (Int 1))].
Proof. vm_compute. repeat split; reflexivity. Qed.

Lemma idle_inv_boot (pin t0 : Z) : idle_inv (boot pin t0).
Proof. unfold idle_inv. cbn. split; [reflexivity | lia]. Qed.

Lemma idle_inv_tick (d : N) (w : World) : idle_inv w -> idle_inv (tick d w).
Proof.
  unfold idle_inv. fw_open w. intros [-> Hb].
  destruct dir; fw_unfold; fw_cases; fw_bools; int_small;
    (split; [reflexivity | lia]).
Qed.

Lemma idle_inv_run (ds : list N) (w : World) :
  idle_inv w -> idle_inv (run ds w).
Proof.
  revert w. induction ds as [| d ds IH]; intros w H; [exact H |].
  rewrite run_cons. apply IH, idle_inv_tick, H.
Qed.

(** ** Entering the recording pattern from idle *)

(** C8 (as the code has it): after any run of the idle pattern from boot
    the brightness is in [0, 80]; [setState(RECORDING)] followed by
    [update()] writes, when more than 8 ms have passed since [lastUpdate],
    the idle brightness plus 10 when the ramp was ascending and, when it
    was descending from 10 or more, the idle brightness minus 10: a value
    in [0, 89] that continues the idle ramp; when no more than 8 ms have
    passed it writes nothing. *)
Theorem recording_after_idle_continues_ramp
  (pin t0 : Z) (ds : list N) (d : N) :
  let w := run ds (boot pin t0) in
  let w1 := exec (setState RECORDING) w in
  let w' := tick d w1 in
  let v := if direction (led w)
           then brightness (led w) + 10
           else brightness (led w) - 10 in
  currentState (led w) = IDLE /\
  0 <= brightness (led w) <= 80 /\
  (qualifies 8 d w1 = true ->
   (direction (led w) = false -> 10 <= brightness (led w)) ->
   int_duties (trace w') = int_duties (trace w) ++ [v] /\
   brightness (led w') = v /\
   0 <= v <= 89) /\
  (qualifies 8 d w1 = false ->
   int_duties (trace w') = int_duties (trace w)).
Proof.
  cbv zeta.
  pose proof (idle_inv_run ds (boot pin t0) (idle_inv_boot pin t0)) as Hinv.
  revert Hinv. generalize (run ds (boot pin t0)) as w. intros w.
  unfold idle_inv. fw_open w. intros [-> Hb].
  split; [reflexivity |]. split; [destruct dir; lia |].
  fw_unfold. split.
  - intros Hq Hlow. rewrite Hq.
    destruct dir; [| specialize (Hlow eq_refl)]; fw_unfold; int_small;
      fw_cases; rewrite !int_duties_app; cbn; rewrite app_nil_r;
      repeat split; lia.
  - intros Hq. rewrite Hq. cbn. rewrite int_duties_app. cbn.
    now rewrite app_nil_r.
Qed.

Lemma recording_after_idle_continues_ramp_witness :
  let w := run (repeat 21%N 100) (boot 2 0) in
  let w1 := exec (setState RECORDING) w in
  let w' := tick 9 w1 in
  let v := if direction (led w)
           then brightness (led w) + 10
           else brightness (led w) - 10 in
  (qualifies 8 9 w1 = true /\
   direction (led w) = false /\ brightness (led w) = 60 /\ v = 50) /\
  currentState (led w) = IDLE /\
  0 <= brightness (led w) <= 80 /\
  (qualifies 8 9 w1 = true ->
   (direction (led w) = false -> 10 <= brightness (led w)) ->
   int_duties (trace w') = int_duties (trace w) ++ [v] /\
   brightness (led w') = v /\
   0 <= v <= 89) /\
  (qualifies 8 9 w1 = false ->
   int_duties (trace w') = int_duties (trace w)).
Proof.
  split; [vm_compute; repeat split |].
  apply (recording_after_idle_continues_ramp 2 0 (repeat 21%N 100) 9).
Defined.

(** C8 fails as stated: idle for 5 ms after boot, then [setState(RECORDING)]
    and [update()] 8 ms later write duty 10, which is below 50; straight
    from boot, [update()] 8 ms later writes nothing at all. *)
Lemma recording_after_idle_starts_below_50 :
  let w := run [5%N] (boot 2 0) in
  let w' := tick 8 (exec (setState RECORDING) w) in
  currentState (led w) = IDLE /\
  int_duties (trace w') = [10] /\
  ~ Forall (fun v => 50 <= v) (int_duties (trace w')) /\
  int_duties (trace (tick 8 (exec (setState RECORDING) (boot 2 0)))) = [].
Proof.
  vm_compute. repeat split; try reflexivity.
  intros H. inversion H as [| ? ? H10 _]. apply H10. reflexivity.
Qed.

(** ** Patterns that never end by themselves *)

Lemma tick_keeps_recording_error (d : N) (w : World) :
  currentState (led w) = RECORDING \/ currentState (led w) = ERROR ->
  currentState (led (tick d w)) = currentState (led w).
Proof.
  fw_open w. intros [-> | ->]; fw_unfold; fw_cases; reflexivity.
Qed.

(** C9: in state RECORDING, and in state ERROR, any number of [update()]
    calls at any times leaves [currentState] as it is. *)
Theorem recording_error_never_self_terminate (w : World) (ds : list N) :
  currentState (led w) = RECORDING \/ currentState (led w) = ERROR ->
  currentState (led (run ds w)) = currentState (led w).
Proof.
  revert w. induction ds as [| d ds IH]; intros w H; [reflexivity |].
  rewrite run_cons, IH; rewrite tick_keeps_recording_error; auto.
Qed.

Lemma recording_error_never_self_terminate_witness :
  currentState
    (led (run (repeat 9%N (100 * 100))
            (exec (setState RECORDING) (boot 2 0))))
  = RECORDING /\
  currentState
    (led (run (repeat 51%N (100 * 100)) (exec (setState ERROR) (boot 2 0))))
  = ERROR.
Proof.
  split.
  - apply (recording_error_never_self_terminate
             (exec (setState RECORDING) (boot 2 0))). left. reflexivity.
  - apply (recording_error_never_self_terminate
             (exec (setState ERROR) (boot 2 0))). right. reflexivity.
Defined.

(** ** The blinking patterns *)

Section Blink.

(** The cadence and the high value of the pattern that is running. *)
Variables cad high : Z.

Lemma blink_tick_keeps (d : N) (w : World) :
  blink_params (currentState (led w)) = Some (cad, high) ->
  currentState (led (tick d w)) = currentState (led w) /\
  (brightness (led w) = 0 \/ brightness (led w) = high ->
   brightness (led (tick d w)) = 0 \/ brightness (led (tick d w)) = high).
Proof.
  fw_open w. intros Hp.
  destruct cur; try discriminate Hp; injection Hp as <- <-;
    fw_unfold; fw_cases; auto.
Qed.

Lemma blink_tick_toggles (d : N) (w : World) :
  blink_params (currentState (led w)) = Some (cad, high) ->
  qualifies cad d w = true ->
  trace (tick d w) =
    trace w ++ [(clock w + Z.of_N d,
                 LedcWrite (ledChannel (led w))
                   (Int (if brightness (led w) =? 0 then high else 0)))] /\
  brightness (led (tick d w))
  = (if brightness (led w) =? 0 then high else 0).
Proof.
  fw_open w. intros Hp Hq.
  destruct cur; try discriminate Hp; injection Hp as <- <-;
    fw_unfold; rewrite Hq; cbn; split; reflexivity.
Qed.

Lemma blink_run_keeps (ds : list N) (w : World) :
  blink_params (currentState (led w)) = Some (cad, high) ->
  brightness (led w) = 0 \/ brightness (led w) = high ->
  currentState (led (run ds w)) = currentState (led w) /\
  (brightness (led (run ds w)) = 0 \/ brightness (led (run ds w)) = high).
Proof.
  revert w. induction ds as [| d ds IH]; intros w Hp Hb; [auto |].
  rewrite run_cons.
  destruct (blink_tick_keeps d w Hp) as [Hs Hb'].
  destruct (IH (tick d w)) as [Hs2 Hb2]; [now rewrite Hs | auto |].
  split; [congruence | exact Hb2].
Qed.

End Blink.

(** C10: in UPLOADING, ERROR and LOW_BATTERY (high value 255, 255 and 100),
    a tick that is due for the pattern writes the high value when the
    stored brightness is 0 and writes 0 otherwise, and stores what it
    wrote; whatever the brightness was on entry, from then on the stored
    brightness is 0 or the high value after any further ticks. *)
Theorem blink_patterns_toggle (w : World) (cad high : Z) (d : N) :
  blink_params (currentState (led w)) = Some (cad, high) ->
  qualifies cad d w = true ->
  let w' := tick d w in
  let v := if brightness (led w) =? 0 then high else 0 in
  trace w' = trace w ++ [(clock w + Z.of_N d,
                          LedcWrite (ledChannel (led w)) (Int v))] /\
  brightness (led w') = v /\
  forall ds : list N,
    brightness (led (run ds w')) = 0 \/ brightness (led (run ds w')) = high.
Proof.
  intros Hp Hq.
  destruct (blink_tick_toggles cad high d w Hp Hq) as [Htr Hb].
  destruct (blink_tick_keeps cad high d w Hp) as [Hs _].
  cbv zeta. split; [exact Htr |]. split; [exact Hb |].
  intros ds. apply (blink_run_keeps cad high ds (tick d w)).
  - now rewrite Hs.
  - rewrite Hb. destruct (brightness (led w) =? 0); auto.
Qed.

Lemma blink_patterns_toggle_witness :
  let w := exec (setState LOW_BATTERY)
             (run (repeat 9%N 3) (exec (setState RECORDING) (boot 2 0))) in
  let w' := tick 1100 w in
  brightness (led w) = 30 /\
  trace w' = trace w ++ [(1127, LedcWrite 0 (Int 0))] /\
  brightness (led w') = 0 /\
  forall ds : list N,
    brightness (led (run ds w')) = 0 \/ brightness (led (run ds w')) = 100.
Proof.
  split; [reflexivity |].
  apply (blink_patterns_toggle
           (exec (setState LOW_BATTERY)
              (run (repeat 9%N 3) (exec (setState RECORDING) (boot 2 0))))
           1000 100 1100); reflexivity.
Defined.

(** ** The blocking sequences *)

Lemma rebase_origin (w : World) : rebase w (origin w) = w.
Proof.
  destruct w as [c p e tr]. unfold rebase, origin. cbn.
  now rewrite Z.add_0_r, app_nil_r.
Qed.

Lemma int_duties_restamp (f : Z -> Z) (tr : list (Z * event)) :
  int_duties (map (fun te => (f (fst te), snd te)) tr) = int_duties tr.
Proof.
  unfold int_duties. induction tr as [| [t e] tr IH]; [reflexivity |].
  cbn. now rewrite IH.
Qed.

Lemma ledc_channels_restamp (f : Z -> Z) (tr : list (Z * event)) :
  ledc_channels (map (fun te => (f (fst te), snd te)) tr) = ledc_channels tr.
Proof.
  unfold ledc_channels. induction tr as [| [t e] tr IH]; [reflexivity |].
  cbn. now rewrite IH.
Qed.

Lemma ledc_channels_app (t1 t2 : list (Z * event)) :
  ledc_channels (t1 ++ t2) = ledc_channels t1 ++ ledc_channels t2.
Proof. unfold ledc_channels. now rewrite flat_map_app. Qed.

Lemma relocatable_ret {A : Type} (a : A) : relocatable (ret a).
Proof. intros w0 w. reflexivity. Qed.

Lemma relocatable_bind {A B : Type} (m : M A) (k : A -> M B) :
  relocatable m -> (forall a, relocatable (k a)) -> relocatable (bind m k).
Proof.
  intros Hm Hk w0 w. unfold bind. rewrite Hm. cbn [fst snd]. apply Hk.
Qed.

Lemma relocatable_get {A : Type} (field : LEDAnimator -> A) :
  relocatable (get field).
Proof. intros w0 w. reflexivity. Qed.

Lemma relocatable_emit (e : event) : relocatable (emit e).
Proof.
  intros w0 w. unfold emit, rebase. cbn. f_equal. f_equal.
  now rewrite map_app, app_assoc.
Qed.

Lemma relocatable_delay (ms : Z) : relocatable (delay ms).
Proof.
  intros w0 w. unfold delay, bind, emit, rebase. cbn. f_equal. f_equal.
  - symmetry. apply Z.add_assoc.
  - now rewrite map_app, app_assoc.
Qed.

Lemma relocatable_and_then (m k : M bool) :
  relocatable m -> relocatable k -> relocatable (and_then m k).
Proof.
  intros Hm Hk. unfold and_then. apply relocatable_bind; [exact Hm |].
  intros [|]; [exact Hk | apply relocatable_ret].
Qed.

Lemma relocatable_for_loop (fuel : nat) (cond : Z -> bool) (next : Z -> Z)
    (body : Z -> M bool) :
  (forall i, relocatable (body i)) ->
  forall i, relocatable (for_loop fuel cond next body i).
Proof.
  intros Hb. induction fuel as [| fuel IH]; intros i; cbn [for_loop].
  - apply relocatable_ret.
  - destruct (cond i); [| apply relocatable_ret].
    apply relocatable_bind; [apply Hb |].
    intros [|]; [apply IH | apply relocatable_ret].
Qed.

Ltac relocate :=
  repeat first
    [ apply relocatable_ret
    | apply relocatable_get
    | apply relocatable_emit
    | apply relocatable_delay
    | apply relocatable_and_then
    | apply relocatable_for_loop; intros ?
    | apply relocatable_bind; [| intros ?] ].

Lemma relocatable_startupAnimation (fuel : nat) :
  relocatable (startupAnimation fuel).
Proof.
  unfold startupAnimation, write_then_delay, Serial_println, ledcWrite.
  relocate.
Qed.

Lemma relocatable_begin (fuel : nat) : relocatable (begin fuel).
Proof.
  unfold begin, ledcSetup, ledcAttachPin.
  do 4 (apply relocatable_bind; [relocate | intros ?]).
  apply relocatable_startupAnimation.
Qed.

Lemma relocatable_showWiFiConnected (fuel : nat) :
  relocatable (showWiFiConnected fuel).
Proof. unfold showWiFiConnected, write0_then_delay, ledcWrite. relocate. Qed.

Lemma relocatable_run {A : Type} (m : M A) (w : World) :
  relocatable m -> m w = (fst (m (origin w)), rebase w (snd (m (origin w)))).
Proof. intros Hm. rewrite <- Hm. now rewrite rebase_origin. Qed.

Lemma for_loop_fuel_mono (cond : Z -> bool) (next : Z -> Z)
    (body : nat -> Z -> M bool) :
  (forall i, fuel_mono (fun g => body g i)) ->
  forall (f g f' g' : nat) (i : Z) (w : World),
    fst (for_loop f cond next (body g) i w) = true ->
    (f <= f')%nat -> (g <= g')%nat ->
    for_loop f' cond next (body g') i w = for_loop f cond next (body g) i w.
Proof.
  intros Hb f. induction f as [| f IH]; intros g f' g' i w Hok Hf Hg.
  - discriminate Hok.
  - destruct f' as [| f']; [lia |]. cbn [for_loop] in *.
    destruct (cond i); [| reflexivity].
    unfold bind in *.
    destruct (fst (body g i w)) eqn:Hbody.
    + rewrite (Hb i g g' w Hbody Hg), Hbody.
      apply IH; [exact Hok | lia | exact Hg].
    + discriminate Hok.
Qed.

Lemma fuel_mono_for_loop (cond : Z -> bool) (next : Z -> Z)
    (body : nat -> Z -> M bool) (i : Z) :
  (forall i, fuel_mono (fun g => body g i)) ->
  fuel_mono (fun f => for_loop f cond next (body f) i).
Proof.
  intros Hb f f' w Hok Hle. now apply for_loop_fuel_mono.
Qed.

Lemma fuel_mono_const (m : M bool) : fuel_mono (fun _ => m).
Proof. intros f f' w _ _. reflexivity. Qed.

Lemma fuel_mono_and_then (F G : nat -> M bool) :
  fuel_mono F -> fuel_mono G -> fuel_mono (fun f => and_then (F f) (G f)).
Proof.
  intros HF HG f f' w Hok Hle. unfold and_then, bind in *.
  destruct (fst (F f w)) eqn:HFok.
  - rewrite (HF f f' w HFok Hle), HFok. now apply HG.
  - discriminate Hok.
Qed.

Lemma fuel_mono_bind_unit {A : Type} (m : M A) (F : A -> nat -> M bool) :
  (forall a, fuel_mono (F a)) -> fuel_mono (fun f => bind m (fun a => F a f)).
Proof.
  intros HF f f' w Hok Hle. unfold bind in *. now apply HF.
Qed.

Lemma fuel_mono_startupAnimation : fuel_mono startupAnimation.
Proof.
  unfold startupAnimation.
  apply (fuel_mono_bind_unit _ (fun _ f => _)). intros _.
  apply (fuel_mono_and_then
           (fun f => for_loop f _ _ _ _) (fun f => and_then _ _)).
  - apply (fuel_mono_for_loop _ _ (fun f _ => and_then _ _)). intros i.
    apply (fuel_mono_and_then
             (fun f => for_loop f _ _ _ _) (fun f => for_loop f _ _ _ _));
      apply (fuel_mono_for_loop _ _ (fun _ b => _)); intros b;
      apply fuel_mono_const.
  - apply (fuel_mono_and_then (fun f => for_loop f _ _ _ _) (fun _ => _)).
    + apply (fuel_mono_for_loop _ _ (fun _ _ => _)). intros i.
      apply fuel_mono_const.
    + apply fuel_mono_const.
Qed.

Lemma fuel_mono_begin : fuel_mono begin.
Proof.
  unfold begin.
  do 4 (apply (fuel_mono_bind_unit _ (fun _ f => _)); intros ?).
  apply fuel_mono_startupAnimation.
Qed.

Lemma fuel_mono_showWiFiConnected : fuel_mono showWiFiConnected.
Proof.
  unfold showWiFiConnected.
  apply (fuel_mono_for_loop _ _ (fun f _ => and_then _ _)). intros i.
  apply (fuel_mono_and_then
           (fun f => for_loop f _ _ _ _) (fun f => for_loop f _ _ _ _));
    apply (fuel_mono_for_loop _ _ (fun _ b => _)); intros b;
    apply fuel_mono_const.
Qed.

Lemma Forall_between_check (lo hi : Z) (l : list Z) :
  forallb (fun v => (lo <=? v) && (v <=? hi)) l = true ->
  Forall (fun v => lo <= v <= hi) l.
Proof.
  intros H. apply Forall_forall. intros v Hv.
  rewrite forallb_forall in H. specialize (H v Hv).
  apply andb_true_iff in H. destruct H as [H1 H2].
  apply Z.leb_le in H1. apply Z.leb_le in H2. lia.
Qed.

Lemma Forall_eq_check (c : Z) (l : list Z) :
  forallb (Z.eqb c) l = true -> Forall (eq c) l.
Proof.
  intros H. apply Forall_forall. intros v Hv.
  rewrite forallb_forall in H. now apply Z.eqb_eq, H.
Qed.

Lemma stamped_from_rebase (t0 : Z) (tr : list (Z * event)) :
  forallb (fun te => 0 <=? fst te) tr = true ->
  stamped_from t0 (map (fun te => (t0 + fst te, snd te)) tr).
Proof.
  intros H. unfold stamped_from. apply Forall_forall. intros te Hin.
  apply in_map_iff in Hin. destruct Hin as (te0 & <- & Hin0).
  rewrite forallb_forall in H. specialize (H te0 Hin0).
  apply Z.leb_le in H. cbn. lia.
Qed.

Lemma begin_at_origin (w : World) :
  let w1 := snd (begin 53 (origin w)) in
  fst (begin 53 (origin w)) = true /\
  clock w1 = 1436 /\
  led w1 = led w /\
  pulsePhase w1 = pulsePhase w /\
  forallb (fun te => 0 <=? fst te) (trace w1) = true /\
  length (int_duties (trace w1)) = 323%nat /\
  forallb (fun v => (0 <=? v) && (v <=? 255)) (int_duties (trace w1)) = true /\
  last (int_duties (trace w1)) 255 = 0 /\
  ledc_channels (trace w1) = repeat (ledChannel (led w)) 323.
Proof.
  destruct w as [now phase [pin ch last step b dir cur] tr].
  vm_compute. repeat split; reflexivity.
Qed.

Lemma relocated_facts {A : Type} (m : M A) (w : World) :
  relocatable m ->
  let w1 := snd (m (origin w)) in
  fst (m w) = fst (m (origin w)) /\
  clock (snd (m w)) = clock w + clock w1 /\
  led (snd (m w)) = led w1 /\
  pulsePhase (snd (m w)) = pulsePhase w1 /\
  exists evs,
    trace (snd (m w)) = trace w ++ evs /\
    int_duties evs = int_duties (trace w1) /\
    ledc_channels evs = ledc_channels (trace w1) /\
    (forallb (fun te => 0 <=? fst te) (trace w1) = true ->
     stamped_from (clock w) evs).
Proof.
  intros Hm. cbv zeta. rewrite (relocatable_run m w Hm).
  generalize (m (origin w)). intros [a w1]. cbn.
  repeat split.
  eexists. split; [reflexivity |].
  rewrite int_duties_restamp, ledc_channels_restamp.
  repeat split. apply stamped_from_rebase.
Qed.

(** X1: with fuel for its longest loop (53), [begin()] runs to its end.  It
    returns 1436 ms after it was called, has made 323 writes, all on the
    animator's channel and all within [0, 255], the last one 0, and has
    changed no field of the animator. *)
Theorem begin_runs_the_startup_fade (w : World) (fuel : nat) :
  (53 <= fuel)%nat ->
  let w' := snd (begin fuel w) in
  fst (begin fuel w) = true /\
  clock w' = clock w + 1436 /\
  led w' = led w /\
  pulsePhase w' = pulsePhase w /\
  exists evs,
    trace w' = trace w ++ evs /\
    stamped_from (clock w) evs /\
    length (int_duties evs) = 323%nat /\
    Forall (fun v => 0 <= v <= 255) (int_duties evs) /\
    last (int_duties evs) 255 = 0 /\
    ledc_channels evs = repeat (ledChannel (led w)) 323.
Proof.
  intros Hfuel.
  destruct (begin_at_origin w)
    as (Hok & Hck & Hled & Hph & Hst & Hlen & Hrng & Hlast & Hch).
  destruct (relocated_facts (begin 53) w (relocatable_begin 53))
    as (Rok & Rck & Rled & Rph & evs & Rtr & Rdu & Rch & Rst).
  rewrite Hok in Rok.
  cbv zeta. rewrite (fuel_mono_begin 53%nat fuel w Rok Hfuel).
  split; [exact Rok |]. split; [lia |].
  split; [congruence |]. split; [congruence |].
  exists evs. split; [exact Rtr |]. split; [auto |].
  rewrite Rdu, Rch. split; [exact Hlen |].
  split; [now apply Forall_between_check |]. split; [exact Hlast | exact Hch].
Qed.

Lemma begin_runs_the_startup_fade_witness :
  let w := boot 2 0 in
  let w' := snd (begin 53 w) in
  fst (begin 53 w) = true /\
  clock w' = 1436 /\
  led w' = led w /\
  pulsePhase w' = pulsePhase w /\
  exists evs,
    trace w' = trace w ++ evs /\
    stamped_from 0 evs /\
    length (int_duties evs) = 323%nat /\
    Forall (fun v => 0 <= v <= 255) (int_duties evs) /\
    last (int_duties evs) 255 = 0 /\
    ledc_channels evs = repeat 0 323.
Proof.
  apply (begin_runs_the_startup_fade (boot 2 0) 53). apply le_n.
Defined.

Lemma showWiFiConnected_at_origin (w : World) :
  let w1 := snd (showWiFiConnected 87 (origin w)) in
  fst (showWiFiConnected 87 (origin w)) = true /\
  clock w1 = 688 /\
  led w1 = led w /\
  pulsePhase w1 = pulsePhase w /\
  forallb (fun te => 0 <=? fst te) (trace w1) = true /\
  length (int_duties (trace w1)) = 344%nat /\
  forallb (fun v => (0 <=? v) && (v <=? 255)) (int_duties (trace w1)) = true /\
  last (int_duties (trace w1)) 255 = 0 /\
  ledc_channels (trace w1) = repeat 0 344.
Proof.
  destruct w as [now phase [pin ch last step b dir cur] tr].
  vm_compute. repeat split; reflexivity.
Qed.

(** X2: the two free functions never touch the animator they are given and
    write to channel 0 only.  [showWiFiConnected] (fuel 87 covers its
    longest loop) returns after 688 ms and 344 writes within [0, 255], the
    last one 0; [showButtonPress] writes 255, sleeps 50 ms and writes 0. *)
Theorem free_functions_bypass_the_animator (w : World) (fuel : nat) :
  (87 <= fuel)%nat ->
  (let w' := snd (showWiFiConnected fuel w) in
   fst (showWiFiConnected fuel w) = true /\
   clock w' = clock w + 688 /\
   led w' = led w /\
   pulsePhase w' = pulsePhase w /\
   exists evs,
     trace w' = trace w ++ evs /\
     stamped_from (clock w) evs /\
     length (int_duties evs) = 344%nat /\
     Forall (fun v => 0 <= v <= 255) (int_duties evs) /\
     last (int_duties evs) 255 = 0 /\
     ledc_channels evs = repeat 0 344) /\
  (let w' := exec showButtonPress w in
   clock w' = clock w + 50 /\
   led w' = led w /\
   pulsePhase w' = pulsePhase w /\
   trace w' = trace w ++ [(clock w, LedcWrite 0 (Int 255));
                          (clock w, Delay 50);
                          (clock w + 50, LedcWrite 0 (Int 0))]).
Proof.
  intros Hfuel. split.
  - destruct (showWiFiConnected_at_origin w)
      as (Hok & Hck & Hled & Hph & Hst & Hlen & Hrng & Hlast & Hch).
    destruct (relocated_facts (showWiFiConnected 87) w
                (relocatable_showWiFiConnected 87))
      as (Rok & Rck & Rled & Rph & evs & Rtr & Rdu & Rch & Rst).
    rewrite Hok in Rok.
    cbv zeta. rewrite (fuel_mono_showWiFiConnected 87%nat fuel w Rok Hfuel).
    split; [exact Rok |]. split; [lia |].
    split; [congruence |]. split; [congruence |].
    exists evs. split; [exact Rtr |]. split; [auto |].
    rewrite Rdu, Rch. split; [exact Hlen |].
    split; [now apply Forall_between_check |].
    split; [exact Hlast | exact Hch].
  - destruct w as [now phase e tr]. cbn.
    rewrite <- !app_assoc. repeat split.
Qed.

Lemma free_functions_bypass_the_animator_witness :
  let w := exec (setState UPLOADING) (boot 2 0) in
  (let w' := snd (showWiFiConnected 87 w) in
   fst (showWiFiConnected 87 w) = true /\
   clock w' = 688 /\
   led w' = led w /\
   pulsePhase w' = pulsePhase w /\
   exists evs,
     trace w' = trace w ++ evs /\
     stamped_from 0 evs /\
     length (int_duties evs) = 344%nat /\
     Forall (fun v => 0 <= v <= 255) (int_duties evs) /\
     last (int_duties evs) 255 = 0 /\
     ledc_channels evs = repeat 0 344) /\
  (let w' := exec showButtonPress w in
   clock w' = 50 /\
   led w' = led w /\
   pulsePhase w' = pulsePhase w /\
   trace w' = trace w ++ [(0, LedcWrite 0 (Int 255));
                          (0, Delay 50);
                          (50, LedcWrite 0 (Int 0))]).
Proof.
  apply (free_functions_bypass_the_animator
           (exec (setState UPLOADING) (boot 2 0)) 87). apply le_n.
Defined.

(** ** Properties of [update] over all patterns *)

(** The same evaluation steps, on the goal alone. *)
Ltac fw_goal :=
  cbv [tick exec update breathingEffect recordingPulse processingSpinner
       uploadingBlink successFlash errorFlash connectingPulse listeningWave
       brutalFeedbackEffect lowBatteryWarning setState elapsed_over
       stamp_lastUpdate write_brightness write_step_parity incr_animationStep
       toggle_brightness when bind ret get modify_led set_lastUpdate
       set_animationStep set_brightness set_direction set_currentState
       get_pulsePhase set_pulsePhase emit millis delay ledcWrite
       Serial_printf advance qualifies elapsed];
  cbn [fst snd clock pulsePhase led trace ledPin ledChannel lastUpdate
       animationStep brightness direction currentState
       AnimationState_eqb negb].

Ltac fw_split :=
  repeat match goal with
         | |- context [if ?c then _ else _] =>
             destruct c eqn:?;
             cbn [fst snd clock pulsePhase led trace ledPin ledChannel
                  lastUpdate animationStep brightness direction currentState
                  andb orb negb]
         end.

Lemma perform_all_cons (a : action) (acts : list action) (w : World) :
  perform_all (a :: acts) w = perform_all acts (perform a w).
Proof. reflexivity. Qed.

Lemma perform_all_preserves (P : World -> Prop) :
  (forall s w, P w -> P (exec (setState s) w)) ->
  (forall d w, P w -> P (tick d w)) ->
  forall acts w, P w -> P (perform_all acts w).
Proof.
  intros Hs Ht acts. induction acts as [| a acts IH]; intros w Hw.
  - exact Hw.
  - rewrite perform_all_cons. apply IH. destruct a; cbn; auto.
Qed.

Lemma ledc_writes_app (t1 t2 : list (Z * event)) :
  ledc_writes (t1 ++ t2) = ledc_writes t1 ++ ledc_writes t2.
Proof. unfold ledc_writes. now rewrite flat_map_app. Qed.

(** *** The connecting phase stays in range *)

Lemma pulsePhase_tick (d : N) (w : World) :
  0 <= pulsePhase w <= 4 -> 0 <= pulsePhase (tick d w) <= 4.
Proof.
  fw_open w. intros Hp.
  destruct cur; fw_goal; fw_split; fw_bools; subst; int_small; lia.
Qed.

(** X3: whatever sequence of [setState] and [update] calls follows boot,
    the static phase counter of [connectingPulse] stays within 0..4: the
    [switch] never falls through and the increment never overflows. *)
Theorem pulsePhase_stays_in_range (pin t0 : Z) (acts : list action) :
  0 <= pulsePhase (perform_all acts (boot pin t0)) <= 4.
Proof.
  apply (perform_all_preserves (fun w => 0 <= pulsePhase w <= 4)).
  - intros s w H. now rewrite setState_keeps_pulsePhase.
  - intros d w H. now apply pulsePhase_tick.
  - cbn. lia.
Qed.

(** *** The stored brightness over any sequence of calls *)

Lemma brightness_inv_setState (s : AnimationState) (w : World) :
  brightness_inv w -> brightness_inv (exec (setState s) w).
Proof.
  unfold brightness_inv. fw_open w. intros (Hb1 & Hb2 & Hd).
  fw_goal. destruct (AnimationState_eqb cur s); fw_goal;
    (split; [assumption |]); (split; [assumption |]);
    rewrite ?int_duties_app; cbn; rewrite ?app_nil_r; assumption.
Qed.

Ltac duties_in_range :=
  rewrite ?int_duties_app; cbn [int_duties flat_map snd app];
  rewrite ?app_nil_r;
  repeat (apply Forall_app; split);
  try assumption;
  repeat constructor; lia.

Lemma brightness_inv_tick (d : N) (w : World) :
  brightness_inv w -> brightness_inv (tick d w).
Proof.
  unfold brightness_inv. fw_open w. intros (Hb1 & Hb2 & Hd).
  destruct cur, dir;
    try specialize (Hb1 eq_refl); try specialize (Hb2 eq_refl);
    fw_goal; fw_split; fw_bools; subst; int_small;
    (split; [intros; try discriminate; try lia |]);
    (split; [intros; try discriminate; try lia | duties_in_range]).
Qed.

(** X4: whatever sequence of [setState] and [update] calls follows boot,
    the stored brightness and every [int] duty written stay within
    [-10, 265], so the [int] arithmetic on brightness never wraps; both
    bounds are reached. *)
Theorem brightness_stays_within_minus10_265 :
  (forall (pin t0 : Z) (acts : list action),
     let w := perform_all acts (boot pin t0) in
     -10 <= brightness (led w) <= 265 /\
     Forall (fun v => -10 <= v <= 265) (int_duties (trace w))) /\
  (exists acts, brightness (led (perform_all acts (boot 2 0))) = 265) /\
  (exists acts, brightness (led (perform_all acts (boot 2 0))) = -10).
Proof.
  split; [| split].
  - intros pin t0 acts.
    assert (H : brightness_inv (perform_all acts (boot pin t0))).
    { apply perform_all_preserves.
      - apply brightness_inv_setState.
      - apply brightness_inv_tick.
      - unfold brightness_inv. cbn. repeat split; try lia. constructor. }
    destruct H as (Hb1 & Hb2 & Hd). cbv zeta. split; [| exact Hd].
    destruct (direction _); [specialize (Hb1 eq_refl) | specialize (Hb2 eq_refl)];
      lia.
  - exists [SetState UPLOADING; Update 101; SetState RECORDING; Update 9].
    vm_compute. reflexivity.
  - exists (map Update (repeat 21%N 80)
            ++ [SetState UPLOADING; Update 101; SetState RECORDING; Update 9]).
    vm_compute. reflexivity.
Qed.

(** *** When [update] changes the state *)

(** X5: [update()] changes [currentState] in two cases only: SUCCESS with
    [animationStep >= 6] becomes IDLE and BRUTAL_FEEDBACK with
    [animationStep > 6] becomes LISTENING, both with [animationStep] back
    at 0; in every other case the state is kept. *)
Theorem update_changes_state_only_to_finish (w : World) (d : N) :
  let e := led w in
  let e' := led (tick d w) in
  (currentState e = SUCCESS /\ 6 <= animationStep e ->
   currentState e' = IDLE /\ animationStep e' = 0) /\
  (currentState e = BRUTAL_FEEDBACK /\ 6 < animationStep e ->
   currentState e' = LISTENING /\ animationStep e' = 0) /\
  (~ (currentState e = SUCCESS /\ 6 <= animationStep e) ->
   ~ (currentState e = BRUTAL_FEEDBACK /\ 6 < animationStep e) ->
   currentState e' = currentState e).
Proof.
  fw_open w. cbv zeta. split; [| split].
  - intros [-> Hs]. fw_goal.
    replace (step <? 6) with false by (symmetry; apply Z.ltb_ge; lia).
    replace (6 <=? step) with true by (symmetry; apply Z.leb_le; lia).
    cbn. split; reflexivity.
  - intros [-> Hs]. fw_goal.
    replace (step =? 0) with false by (symmetry; apply Z.eqb_neq; lia).
    replace (step <=? 6) with false by (symmetry; apply Z.leb_gt; lia).
    replace (6 <? step) with true by (symmetry; apply Z.ltb_lt; lia).
    cbn. fw_goal. split; reflexivity.
  - intros Hs Hb.
    destruct cur; fw_goal; fw_split; fw_bools; try reflexivity;
      exfalso;
      first [ apply Hs; split; [reflexivity | lia]
            | apply Hb; split; [reflexivity | lia] ].
Qed.

Lemma update_changes_state_only_to_finish_witness :
  let w := run (repeat 151%N 6) (exec (setState SUCCESS) (boot 2 0)) in
  let e := led w in
  let e' := led (tick 0 w) in
  animationStep e = 6 /\
  (currentState e = SUCCESS /\ 6 <= animationStep e ->
   currentState e' = IDLE /\ animationStep e' = 0) /\
  (currentState e = BRUTAL_FEEDBACK /\ 6 < animationStep e ->
   currentState e' = LISTENING /\ animationStep e' = 0) /\
  (~ (currentState e = SUCCESS /\ 6 <= animationStep e) ->
   ~ (currentState e = BRUTAL_FEEDBACK /\ 6 < animationStep e) ->
   currentState e' = currentState e).
Proof.
  split; [reflexivity |].
  apply (update_changes_state_only_to_finish
           (run (repeat 151%N 6) (exec (setState SUCCESS) (boot 2 0))) 0).
Defined.

(** *** Calls that come too early *)

(** X6: a call of [update()] that finds no more than the pattern's cadence
    elapsed since [lastUpdate] does nothing: no write, no sleep, no field
    changed.  The exceptions are the calls that do not test the time:
    SUCCESS at step 6 or more, BRUTAL_FEEDBACK at step 0 or above 6. *)
Theorem update_before_cadence_is_a_noop (w : World) (d : N) :
  elapsed (advance d w) <= cadence_of (currentState (led w)) ->
  (currentState (led w) = SUCCESS -> animationStep (led w) < 6) ->
  (currentState (led w) = BRUTAL_FEEDBACK ->
   animationStep (led w) <> 0 /\ animationStep (led w) <= 6) ->
  tick d w = advance d w.
Proof.
  fw_open w. intros He Hs Hb.
  destruct cur; cbn [cadence_of] in He;
    try specialize (Hs eq_refl); try specialize (Hb eq_refl);
    fw_unfold; fw_split; fw_bools; try reflexivity; lia.
Qed.

Lemma update_before_cadence_is_a_noop_witness :
  let w := tick 9 (exec (setState RECORDING) (boot 2 0)) in
  elapsed (advance 8 w) = 8 /\ tick 8 w = advance 8 w.
Proof.
  split; [reflexivity |].
  apply (update_before_cadence_is_a_noop
           (tick 9 (exec (setState RECORDING) (boot 2 0))) 8).
  - vm_compute. discriminate.
  - discriminate.
  - discriminate.
Defined.

(** *** One write per call *)

(** X7: one call of [update()] makes at most one [ledcWrite] and at most
    one [delay]. *)
Theorem update_writes_at_most_once (w : World) (d : N) :
  exists evs,
    trace (tick d w) = trace w ++ evs /\
    (length (ledc_writes evs) <= 1)%nat /\
    (length (delays evs) <= 1)%nat.
Proof.
  fw_open w. destruct cur; fw_goal; fw_split;
    rewrite <- ?app_assoc; cbn [app];
    first [ exists []; rewrite app_nil_r; split; [reflexivity |];
            cbn; split; lia
          | eexists; split; [reflexivity |];
            cbn; split; lia ].
Qed.

(** *** The two sine patterns *)

Lemma sine_tick_keeps (d : N) (w : World) :
  currentState (led w) = PROCESSING \/ currentState (led w) = LISTENING ->
  currentState (led (tick d w)) = currentState (led w) /\
  brightness (led (tick d w)) = brightness (led w) /\
  direction (led (tick d w)) = direction (led w) /\
  int_duties (trace (tick d w)) = int_duties (trace w).
Proof.
  fw_open w. intros [-> | ->]; fw_goal; fw_split;
    rewrite ?int_duties_app; cbn; rewrite ?app_nil_r; repeat split.
Qed.

Lemma sine_run_keeps (ds : list N) (w : World) :
  currentState (led w) = PROCESSING \/ currentState (led w) = LISTENING ->
  currentState (led (run ds w)) = currentState (led w) /\
  brightness (led (run ds w)) = brightness (led w) /\
  direction (led (run ds w)) = direction (led w) /\
  int_duties (trace (run ds w)) = int_duties (trace w).
Proof.
  revert w. induction ds as [| d ds IH]; intros w H; [repeat split |].
  rewrite run_cons.
  destruct (sine_tick_keeps d w H) as (Hc & Hb & Hd & Ht).
  destruct (IH (tick d w)) as (Hc2 & Hb2 & Hd2 & Ht2);
    [rewrite Hc; exact H |].
  repeat split; congruence.
Qed.

(** X8: [processingSpinner] and [listeningWave] compute their duty in a
    local variable: over any run in PROCESSING or LISTENING the state, the
    stored [brightness] and [direction] stay as they were on entry and no
    [int] duty is written; a tick that is due increments [animationStep]
    and writes the sine sample of the new step. *)
Theorem sine_patterns_leave_brightness_alone (w : World) (ds : list N) (d : N) :
  currentState (led w) = PROCESSING \/ currentState (led w) = LISTENING ->
  let sample := match currentState (led w) with
                | PROCESSING => ProcessingSine
                | _ => ListeningSine
                end in
  (currentState (led (run ds w)) = currentState (led w) /\
   brightness (led (run ds w)) = brightness (led w) /\
   direction (led (run ds w)) = direction (led w) /\
   int_duties (trace (run ds w)) = int_duties (trace w)) /\
  (qualifies (cadence_of (currentState (led w))) d w = true ->
   animationStep (led (tick d w)) = int_add (animationStep (led w)) 1 /\
   trace (tick d w) =
     trace w ++ [(clock w + Z.of_N d,
                  LedcWrite (ledChannel (led w))
                    (sample (int_add (animationStep (led w)) 1)))]).
Proof.
  intros H. cbv zeta. split; [now apply sine_run_keeps |].
  fw_open w. destruct H as [-> | ->]; cbn [cadence_of]; intros Hq;
    fw_unfold; rewrite Hq; cbn; split; reflexivity.
Qed.

Lemma sine_patterns_leave_brightness_alone_witness :
  let w := exec (setState LISTENING)
             (tick 101 (exec (setState UPLOADING) (boot 2 0))) in
  brightness (led w) = 255 /\
  (currentState (led (run [41%N; 41%N] w)) = LISTENING /\
   brightness (led (run [41%N; 41%N] w)) = 255 /\
   direction (led (run [41%N; 41%N] w)) = direction (led w) /\
   int_duties (trace (run [41%N; 41%N] w)) = int_duties (trace w)) /\
  (qualifies 40 41 w = true ->
   animationStep (led (tick 41 w)) = 1 /\
   trace (tick 41 w) = trace w ++ [(142, LedcWrite 0 (ListeningSine 1))]).
Proof.
  split; [reflexivity |].
  apply (sine_patterns_leave_brightness_alone
           (exec (setState LISTENING)
              (tick 101 (exec (setState UPLOADING) (boot 2 0))))
           [41%N; 41%N] 41).
  right. reflexivity.
Defined.

(** *** The recording ramp *)

Lemma recording_band_tick (d : N) (w : World) :
  currentState (led w) = RECORDING ->
  recording_band w ->
  currentState (led (tick d w)) = RECORDING /\
  recording_band (tick d w) /\
  exists evs,
    trace (tick d w) = trace w ++ evs /\
    Forall (fun v => 41 <= v <= 264) (int_duties evs).
Proof.
  unfold recording_band. fw_open w. intros -> (Hb1 & Hb2).
  destruct dir;
    try specialize (Hb1 eq_refl); try specialize (Hb2 eq_refl);
    fw_goal; fw_split; fw_bools; int_small;
    (split; [reflexivity |]);
    (split; [split; intros; try discriminate; lia |]);
    first [ exists []; rewrite app_nil_r; split; [reflexivity | constructor]
          | eexists; split; [reflexivity |];
            cbn; repeat constructor; lia ].
Qed.

(** X9: once the recording ramp is inside its band (brightness in
    [41, 254] going up, in [51, 264] going down), it stays there for any
    run of ticks: the state stays RECORDING and every duty written lies in
    [41, 264]. *)
Theorem recording_ramp_stays_in_band (w : World) (ds : list N) :
  currentState (led w) = RECORDING ->
  recording_band w ->
  currentState (led (run ds w)) = RECORDING /\
  recording_band (run ds w) /\
  41 <= brightness (led (run ds w)) <= 264 /\
  exists evs,
    trace (run ds w) = trace w ++ evs /\
    Forall (fun v => 41 <= v <= 264) (int_duties evs).
Proof.
  revert w. induction ds as [| d ds IH]; intros w Hc Hb.
  - rewrite run_nil. split; [exact Hc |]. split; [exact Hb |]. split.
    + destruct Hb as [H1 H2].
      destruct (direction (led w));
        [specialize (H1 eq_refl) | specialize (H2 eq_refl)]; lia.
    + exists []. rewrite app_nil_r. split; [reflexivity | constructor].
  - rewrite run_cons.
    destruct (recording_band_tick d w Hc Hb) as (Hc1 & Hb1 & e1 & Ht1 & Hf1).
    destruct (IH (tick d w) Hc1 Hb1) as (Hc2 & Hb2 & Hr2 & e2 & Ht2 & Hf2).
    split; [exact Hc2 |]. split; [exact Hb2 |]. split; [exact Hr2 |].
    exists (e1 ++ e2). rewrite Ht2, Ht1, app_assoc.
    split; [reflexivity |]. rewrite int_duties_app.
    apply Forall_app. now split.
Qed.

Lemma recording_ramp_stays_in_band_witness :
  let w := run (repeat 9%N 5) (exec (setState RECORDING) (boot 2 0)) in
  let ds := repeat 9%N 100 in
  brightness (led w) = 50 /\
  currentState (led (run ds w)) = RECORDING /\
  recording_band (run ds w) /\
  41 <= brightness (led (run ds w)) <= 264 /\
  exists evs,
    trace (run ds w) = trace w ++ evs /\
    Forall (fun v => 41 <= v <= 264) (int_duties evs).
Proof.
  split; [reflexivity |].
  apply (recording_ramp_stays_in_band
           (run (repeat 9%N 5) (exec (setState RECORDING) (boot 2 0)))
           (repeat 9%N 100)).
  - reflexivity.
  - vm_compute. split; [intros _; split; discriminate | discriminate].
Defined.

(** *** The idle ramp from boot *)

Lemma idle_duties_tick (d : N) (w : World) :
  idle_inv w ->
  Forall (fun v => 0 <= v <= 80) (int_duties (trace w)) ->
  Forall (fun v => 0 <= v <= 80) (int_duties (trace (tick d w))).
Proof.
  unfold idle_inv. fw_open w. intros [-> Hb] Hd.
  destruct dir; fw_goal; fw_split; fw_bools; int_small;
    rewrite ?int_duties_app; cbn [int_duties flat_map snd app];
    rewrite ?app_nil_r;
    repeat (apply Forall_app; split); try assumption;
    repeat constructor; lia.
Qed.

(** X10: from boot, as long as only [update()] is called, the state is
    IDLE and the stored brightness and every duty written lie in
    [0, 80]. *)
Theorem idle_from_boot_stays_within_0_80 (pin t0 : Z) (ds : list N) :
  let w := run ds (boot pin t0) in
  currentState (led w) = IDLE /\
  0 <= brightness (led w) <= 80 /\
  Forall (fun v => 0 <= v <= 80) (int_duties (trace w)).
Proof.
  cbv zeta.
  assert (H : forall w,
             idle_inv w ->
             Forall (fun v => 0 <= v <= 80) (int_duties (trace w)) ->
             idle_inv (run ds w) /\
             Forall (fun v => 0 <= v <= 80) (int_duties (trace (run ds w)))).
  { induction ds as [| d ds IH]; intros w Hi Hd; [now split |].
    rewrite run_cons. apply IH.
    - now apply idle_inv_tick.
    - now apply idle_duties_tick. }
  destruct (H (boot pin t0) (idle_inv_boot pin t0)) as [[Hc Hb] Hd];
    [constructor |].
  split; [exact Hc |]. split; [| exact Hd].
  destruct (direction _); lia.
Qed.

(** *** The patterns that only switch the LED *)

(** X11: in UPLOADING, SUCCESS, ERROR, CONNECTING, BRUTAL_FEEDBACK and
    LOW_BATTERY, whatever the fields hold, a call of [update()] writes
    nothing but 0 or the pattern's high value (100 for LOW_BATTERY, 255
    for the others). *)
Theorem switching_patterns_write_0_or_high (w : World) (d : N) :
  let high := match currentState (led w) with
              | LOW_BATTERY => 100
              | _ => 255
              end in
  In (currentState (led w))
     [UPLOADING; SUCCESS; ERROR; CONNECTING; BRUTAL_FEEDBACK; LOW_BATTERY] ->
  exists evs,
    trace (tick d w) = trace w ++ evs /\
    Forall (fun v => v = 0 \/ v = high) (int_duties evs).
Proof.
  cbv zeta. fw_open w. intros Hin.
  destruct cur; cbn in Hin;
    try solve [exfalso; intuition discriminate];
    clear Hin; fw_goal; fw_split;
    rewrite <- ?app_assoc; cbn [app];
    first [ exists []; rewrite app_nil_r; split; [reflexivity | constructor]
          | eexists; split; [reflexivity |];
            cbn;
            repeat (apply Forall_cons;
                    [first [left; reflexivity | right; reflexivity] |]);
            apply Forall_nil ].
Qed.

Lemma switching_patterns_write_0_or_high_witness :
  let w := exec (setState LOW_BATTERY)
             (run (repeat 9%N 3) (exec (setState RECORDING) (boot 2 0))) in
  brightness (led w) = 30 /\
  exists evs,
    trace (tick 1100 w) = trace w ++ evs /\
    Forall (fun v => v = 0 \/ v = 100) (int_duties evs).
Proof.
  split; [reflexivity |].
  apply (switching_patterns_write_0_or_high
           (exec (setState LOW_BATTERY)
              (run (repeat 9%N 3) (exec (setState RECORDING) (boot 2 0))))
           1100).
  vm_compute. tauto.
Defined.

(** *** The clock wraps, the cadence does not *)

Lemma tick_stamp (d : N) (w : World) :
  lastUpdate (led (tick d w)) = lastUpdate (led w) \/
  lastUpdate (led (tick d w)) = wrap_ulong (clock w + Z.of_N d).
Proof.
  fw_open w. destruct cur; fw_goal; fw_split; auto.
Qed.

(** X12: after a call of [update()] that stamped [lastUpdate], the next
    call measures the real time since that call was entered (its sleep
    included), as long as this is less than 2^32 ms, even when [millis()]
    has wrapped round in between. *)
Theorem cadence_survives_millis_wraparound (w : World) (d d' : N) :
  let t := clock w + Z.of_N d in
  let w' := tick d w in
  lastUpdate (led w') <> lastUpdate (led w) ->
  clock w' + Z.of_N d' - t < ULONG_MOD ->
  elapsed (advance d' w') = clock w' + Z.of_N d' - t.
Proof.
  cbv zeta. intros Hne Hlt.
  destruct (tick_stamp d w) as [H | H]; [contradiction |].
  destruct (tick_extends_trace d w) as (_ & _ & _ & Hck).
  apply (elapsed_since _ (clock w + Z.of_N d)).
  - exact H.
  - cbn. lia.
  - lia.
Qed.

Lemma cadence_survives_millis_wraparound_witness :
  let w := exec (setState UPLOADING) (boot 2 4294967000) in
  let w' := tick 200 w in
  (wrap_ulong (clock w') = 4294967200 /\
   wrap_ulong (clock (advance 150 w')) = 54) /\
  elapsed (advance 150 w') = 150.
Proof.
  split; [split; reflexivity |].
  apply (cadence_survives_millis_wraparound
           (exec (setState UPLOADING) (boot 2 4294967000)) 200 150).
  - vm_compute. discriminate.
  - vm_compute. reflexivity.
Defined.

Lemma connecting_cycle_witness :
  let w := exec (setState CONNECTING) (boot 2 0) in
  let ds := repeat 201%N 5 in
  int_duties (trace (run ds w)) = int_duties (trace w) ++ [255; 0; 255; 0; 0] /\
  delays (trace (run ds w)) = delays (trace w) ++ [600] /\
  pulsePhase (run ds w) = 0.
Proof.
  apply (connecting_cycle (exec (setState CONNECTING) (boot 2 0))
           (repeat 201%N 5)); reflexivity.
Defined.

(** *** The first flash after the brutal-feedback pause *)

(** X14: the brutal-feedback pause does not stamp [lastUpdate].  When the
    last stamp lies in the past (by less than 2^32 ms at the next call),
    the [update()] that follows the 500 ms pause is due whatever little
    time has passed, and writes the first flash, 255. *)
Theorem brutal_first_flash_is_due_at_once (w : World) (t : Z) (d0 d1 : N) :
  currentState (led w) <> BRUTAL_FEEDBACK ->
  lastUpdate (led w) = wrap_ulong t ->
  t <= clock w ->
  clock w + Z.of_N d0 + 500 + Z.of_N d1 - t < ULONG_MOD ->
  let w1 := tick d0 (exec (setState BRUTAL_FEEDBACK) w) in
  qualifies 100 d1 w1 = true /\
  int_duties (trace (tick d1 w1)) = int_duties (trace w1) ++ [255].
Proof.
  intros Hne Hl Ht Hlt. cbv zeta.
  pose proof (setState_enters BRUTAL_FEEDBACK w Hne) as Hw0.
  set (w0 := exec (setState BRUTAL_FEEDBACK) w) in *.
  assert (Hc : currentState (led w0) = BRUTAL_FEEDBACK) by now rewrite Hw0.
  assert (Hs : animationStep (led w0) = 0) by now rewrite Hw0.
  assert (Hl0 : lastUpdate (led w0) = lastUpdate (led w)) by now rewrite Hw0.
  assert (Hck : clock w0 = clock w) by now rewrite Hw0.
  destruct (brutal_entry d0 w0 Hc Hs) as (_ & Hk & Hc1 & Hs1 & Hl1).
  assert (Hq : qualifies 100 d1 (tick d0 w0) = true).
  { unfold qualifies. apply Z.ltb_lt.
    rewrite (elapsed_since _ t (clock w + Z.of_N d0 + 500 + Z.of_N d1 - t)).
    - lia.
    - cbn. congruence.
    - cbn. rewrite Hk, Hck. lia.
    - lia. }
  split; [exact Hq |].
  destruct (brutal_step d1 (tick d0 w0) Hc1) as (_ & _ & Hd);
    [lia | exact Hq |].
  rewrite Hd, Hs1. reflexivity.
Qed.

Lemma brutal_first_flash_is_due_at_once_witness :
  let w := tick 21 (boot 2 0) in
  let w1 := tick 0 (exec (setState BRUTAL_FEEDBACK) w) in
  lastUpdate (led w) = 21 /\
  qualifies 100 0 w1 = true /\
  int_duties (trace (tick 0 w1)) = int_duties (trace w1) ++ [255].
Proof.
  split; [reflexivity |].
  apply (brutal_first_flash_is_due_at_once (tick 21 (boot 2 0)) 21 0 0).
  - discriminate.
  - reflexivity.
  - vm_compute. discriminate.
  - vm_compute. reflexivity.
Defined.
